(** * PyOrion web-socket bridge: marshalling codec, connection manager,
      event dispatcher and invocation broker

    A shallow embedding of [src/assets/pyorion_socket.js] (both scripts of
    the bundle) and the properties its specification states about it.

    Modelling conventions.
    - JavaScript values are the inductive [JsValue]; objects are listed by
      their own enumerable string-keyed properties in [Object.entries]
      order.  Symbols, bigints, sparse arrays, accessors, proxies and a
      prototype changed through the [__proto__] setter (an object key or
      event name [__proto__]) are outside the model; strings are sequences
      of 8-bit characters.  Statements about values that are copied key
      by key, and about frames, therefore assume [no_proto_key].
    - Three calls of the host are modelled on the inputs they accept:
      [new WebSocket] (it throws on an address or a protocol list it
      rejects), the spread of octets into [String.fromCharCode] (it
      throws beyond the engine's limit on argument lists) and
      [JSON.stringify] (the model records the value handed to it, not
      the text).  Statements about them are about calls that return, or
      about values [JSON.stringify] writes as they are.
    - [window] is modelled by the properties [transformCallback] defines on
      it and the properties named [_<text>] it inherits from
      [Object.prototype]; the page is taken to define no other property
      named [_<text>].
    - Code that can throw returns a [Completion]; code that also changes
      the script's variables threads a [World] and returns the completion
      together with the world it leaves behind.
    - Built-ins whose result ECMAScript leaves to the implementation, the
      random source, the script template and user-supplied listeners are
      the fields of an environment record [Env]; every definition and
      theorem is parametric in it. *)

From stdpp Require Import gmap strings list fin_maps pretty.
From Stdlib Require Import ZArith Lia Ascii String.
From Stdlib.Strings Require Import Byte.

#[local] Set Warnings "-register-all".
#[local] Open Scope string_scope.
#[local] Open Scope list_scope.
#[local] Open Scope Z_scope.

(** ** Numbers *)

(** A JavaScript number.  Integral values are kept exact; the codec only
    passes numbers through, tests them for truthiness, prints them inside
    template literals and turns them into UTF-16 code units. *)
Inductive number :=
| NInt (z : Z)                          (* an integral value, [NInt 0] is +0 *)
| NNegZero                              (* -0 *)
| NDyadic (neg : bool) (m k : positive) (* the non-integral value ±m / 2^k *)
| NInfinity (neg : bool)
| NNaN.

Definition number_truthy (n : number) : bool :=
  match n with
  | NInt z => negb (z =? 0)
  | NNegZero | NNaN => false
  | NDyadic _ _ _ | NInfinity _ => true
  end.

(** [ToUint16]: truncate towards zero, then reduce modulo 2^16. *)
Definition ToUint16 (n : number) : N :=
  match n with
  | NInt z => Z.to_N (z mod 65536)
  | NDyadic neg m k =>
      let t := Z.pos m / 2 ^ Z.pos k in
      Z.to_N ((if neg then - t else t) mod 65536)
  | NNegZero | NInfinity _ | NNaN => 0%N
  end.

(** ** Character-level helpers *)

Definition is_digit (c : ascii) : bool :=
  let n := N_of_ascii c in ((48 <=? n) && (n <=? 57))%N.

Definition digit_val (c : ascii) : Z := Z.of_N (N_of_ascii c) - 48.

Definition digit_char (d : Z) : ascii := ascii_of_N (Z.to_N (48 + d)).

(** [pad n v]: the [n] low decimal digits of [v], most significant first. *)
Fixpoint pad (n : nat) (v : Z) : string :=
  match n with
  | O => EmptyString
  | S n' => String (digit_char ((v / 10 ^ Z.of_nat n') mod 10)) (pad n' v)
  end.

(** [read_digits n acc s]: consume exactly [n] decimal digits. *)
Fixpoint read_digits (n : nat) (acc : Z) (s : string) : option (Z * string) :=
  match n with
  | O => Some (acc, s)
  | S n' =>
      match s with
      | String c s' =>
          if is_digit c then read_digits n' (10 * acc + digit_val c) s' else None
      | EmptyString => None
      end
  end.

Definition expect (c : ascii) (s : string) : option string :=
  match s with
  | String c' s' => if Ascii.eqb c c' then Some s' else None
  | EmptyString => None
  end.

(** ** Dates: the time value and its ISO-8601 rendering *)

Module DateTime.

Definition msPerDay : Z := 86400000.

(** Day number (days since 1970-01-01) to proleptic Gregorian
    (year, month, day), through 400-year eras of 146097 days that start
    on 1 March. *)
Definition civil_of_era_day (doe : Z) : Z * Z * Z :=
  let yoe := (doe - doe / 1460 + doe / 36524 - doe / 146096) / 365 in
  let doy := doe - (365 * yoe + yoe / 4 - yoe / 100) in
  let mp := (5 * doy + 2) / 153 in
  let d := doy - (153 * mp + 2) / 5 + 1 in
  let m := if mp <? 10 then mp + 3 else mp - 9 in
  (if m <=? 2 then yoe + 1 else yoe, m, d).

Definition civil_from_days (z : Z) : Z * Z * Z :=
  let z' := z + 719468 in
  let '(y, m, d) := civil_of_era_day (z' mod 146097) in
  (y + 400 * (z' / 146097), m, d).

Definition era_day_of_civil (yoe m d : Z) : Z :=
  let doy := (153 * (if 2 <? m then m - 3 else m + 9) + 2) / 5 + d - 1 in
  yoe * 365 + yoe / 4 - yoe / 100 + doy.

Definition days_from_civil (y m d : Z) : Z :=
  let y' := if m <=? 2 then y - 1 else y in
  (y' / 400) * 146097 + era_day_of_civil (y' mod 400) m d - 719468.

Definition is_leap (y : Z) : bool :=
  (y mod 4 =? 0) && (negb (y mod 100 =? 0) || (y mod 400 =? 0)).

Definition days_in_month (y m : Z) : Z :=
  if m =? 2 then (if is_leap y then 29 else 28)
  else if (m =? 4) || (m =? 6) || (m =? 9) || (m =? 11) then 30 else 31.

(** The string [Date.prototype.toISOString] builds for a time value:
    [YYYY-MM-DDTHH:mm:ss.sssZ], the year widened to a sign and six
    digits outside 0..9999. *)
Definition iso_of_time (t : Z) : string :=
  let '(y, m, d) := civil_from_days (t / msPerDay) in
  let r := t mod msPerDay in
  let year :=
    if (0 <=? y) && (y <=? 9999) then pad 4 y
    else String (if y <? 0 then "-"%char else "+"%char) (pad 6 (Z.abs y)) in
  year +:+ "-" +:+ pad 2 m +:+ "-" +:+ pad 2 d +:+ "T"
    +:+ pad 2 (r / 3600000) +:+ ":" +:+ pad 2 ((r / 60000) mod 60) +:+ ":"
    +:+ pad 2 ((r / 1000) mod 60) +:+ "." +:+ pad 3 (r mod 1000) +:+ "Z".

(** The part of [Date.parse] that ECMAScript fixes: a string in exactly
    the form [YYYY-MM-DDTHH:mm:ss.sssZ] with every field in range. *)
Definition parse_utc_iso (s : string) : option Z :=
  '(y, s) ← read_digits 4 0 s;
  s ← expect "-" s;
  '(m, s) ← read_digits 2 0 s;
  s ← expect "-" s;
  '(d, s) ← read_digits 2 0 s;
  s ← expect "T" s;
  '(h, s) ← read_digits 2 0 s;
  s ← expect ":" s;
  '(mi, s) ← read_digits 2 0 s;
  s ← expect ":" s;
  '(sec, s) ← read_digits 2 0 s;
  s ← expect "." s;
  '(ms, s) ← read_digits 3 0 s;
  s ← expect "Z" s;
  if (match s with EmptyString => true | _ => false end)
     && (1 <=? m) && (m <=? 12) && (1 <=? d) && (d <=? days_in_month y m)
     && (h <=? 23) && (mi <=? 59) && (sec <=? 59)
  then Some (days_from_civil y m d * msPerDay
             + h * 3600000 + mi * 60000 + sec * 1000 + ms)
  else None.

(** The regular expression [/^\d{4}-\d{2}-\d{2}T/]. *)
Definition iso_prefix (s : string) : bool :=
  match
    '(_, s) ← read_digits 4 0 s;
    s ← expect "-" s;
    '(_, s) ← read_digits 2 0 s;
    s ← expect "-" s;
    '(_, s) ← read_digits 2 0 s;
    expect "T" s
  with
  | Some _ => true
  | None => false
  end.

(** The time values whose year is written with four digits. *)
Definition four_digit_year (t : Z) : bool :=
  (-62167219200000 <=? t) && (t <=? 253402300799999).

End DateTime.

(** ** Base64 *)

Module Base64.

Definition alphabet : string :=
  "ABCDEFGHIJKLMNOPQRSTUVWXYZabcdefghijklmnopqrstuvwxyz0123456789+/".

Definition sextet (n : N) : ascii :=
  match String.get (N.to_nat (n mod 64)) alphabet with
  | Some c => c
  | None => "="%char
  end.

(** [encode]: three octets become four characters, the tail is padded. *)
Fixpoint encode (octets : list N) : string :=
  match octets with
  | [] => EmptyString
  | [a] =>
      String (sextet (a / 4))
        (String (sextet ((a mod 4) * 16)) "==")
  | [a; b] =>
      String (sextet (a / 4))
        (String (sextet ((a mod 4) * 16 + b / 16))
           (String (sextet ((b mod 16) * 4)) "="))
  | a :: b :: c :: rest =>
      String (sextet (a / 4))
        (String (sextet ((a mod 4) * 16 + b / 16))
           (String (sextet ((b mod 16) * 4 + c / 64))
              (String (sextet (c mod 64)) (encode rest))))
  end%N.

End Base64.

(** ** Values *)

Inductive JsValue :=
| JUndefined
| JNull
| JBool (b : bool)
| JNum (n : number)
| JStr (s : string)
| JDate (tv : option Z)               (* time value in ms; [None] is an invalid date *)
| JArrayBuffer (bytes : list byte)
| JTypedArray (elems : list number)   (* a view with numeric elements *)
| JArray (items : list JsValue)
| JSet (items : list JsValue)         (* members in insertion order *)
| JObject (props : list (string * JsValue))
    (* prototype [Object.prototype]: literals and [JSON.parse] results *)
| JInstance (cname repr : string) (props : list (string * JsValue))
    (* any other object: built by a function named [cname], [String(obj)]
       gives [repr] *)
| JFunction (name repr : string).

(** A completion record: normal return or a thrown value. *)
Inductive Completion (A : Type) :=
| Normal (a : A)
| Throw (e : JsValue).
Arguments Normal {A} a.
Arguments Throw {A} e.

#[global] Instance Completion_ret : MRet Completion := λ A a, Normal a.
#[global] Instance Completion_bind : MBind Completion :=
  λ A B f m, match m with Normal a => f a | Throw e => Throw e end.
#[global] Instance Completion_fmap : FMap Completion :=
  λ A B f m, match m with Normal a => Normal (f a) | Throw e => Throw e end.

(** [new cname(msg)] for the built-in error classes. *)
Definition error_object (cname msg : string) : JsValue :=
  JInstance cname (cname +:+ ": " +:+ msg) [].

(** [ToBoolean]. *)
Definition truthy (v : JsValue) : bool :=
  match v with
  | JUndefined | JNull => false
  | JBool b => b
  | JNum n => number_truthy n
  | JStr s => negb (String.eqb s "")
  | _ => true
  end.

(** [v ?? d]. *)
Definition nullish_or (v d : JsValue) : JsValue :=
  match v with
  | JUndefined | JNull => d
  | _ => v
  end.

(** Own properties, as an association list in [Object.entries] order. *)
Fixpoint lookup_prop (k : string) (ps : list (string * JsValue)) : option JsValue :=
  match ps with
  | [] => None
  | (k', v) :: rest => if String.eqb k k' then Some v else lookup_prop k rest
  end.

(** [obj[k] = v] on a data property: replace in place or append. *)
Fixpoint set_prop (k : string) (v : JsValue) (ps : list (string * JsValue))
  : list (string * JsValue) :=
  match ps with
  | [] => [(k, v)]
  | (k', v') :: rest =>
      if String.eqb k k' then (k', v) :: rest else (k', v') :: set_prop k v rest
  end.

(** [v.k] for a value that is neither [null] nor [undefined], read from the
    own properties; none of the names read by the program is inherited from
    a built-in prototype, except a function's [name]. *)
Definition Get (v : JsValue) (k : string) : JsValue :=
  match v with
  | JObject ps | JInstance _ _ ps => default JUndefined (lookup_prop k ps)
  | JFunction name _ => if String.eqb k "name" then JStr name else JUndefined
  | _ => JUndefined
  end.

(** The built-in [Object] function as a value. *)
Definition Object_builtin : JsValue :=
  JFunction "Object" "function Object() { [native code] }".

Definition is_Object_builtin (c : JsValue) : bool :=
  match c with
  | JFunction n r =>
      String.eqb n "Object" && String.eqb r "function Object() { [native code] }"
  | _ => false
  end.

(** [typeof obj === "object" && obj.constructor &&
     obj.constructor.name === "Path"]. An own [constructor] property shadows
    the inherited one. *)
Definition constructor_named_Path (obj : JsValue) : bool :=
  let own c :=
    truthy c && match Get c "name" with JStr n => String.eqb n "Path" | _ => false end in
  match obj with
  | JObject ps =>
      match lookup_prop "constructor" ps with Some c => own c | None => false end
  | JInstance cname _ ps =>
      match lookup_prop "constructor" ps with
      | Some c => own c
      | None => String.eqb cname "Path"
      end
  | _ => false
  end.

(** [typeof obj === "object" && obj.constructor === Object]. *)
Definition constructor_is_Object (obj : JsValue) : bool :=
  match obj with
  | JObject ps =>
      match lookup_prop "constructor" ps with
      | Some c => is_Object_builtin c
      | None => true
      end
  | JInstance _ _ ps =>
      match lookup_prop "constructor" ps with
      | Some c => is_Object_builtin c
      | None => false
      end
  | _ => false
  end.

(** The loop [for (const [k, v] of Object.entries(obj)) acc[k] = f(v)]. *)
Definition assign_entries (f : JsValue → Completion JsValue) :=
  fix go (entries acc : list (string * JsValue))
    : Completion (list (string * JsValue)) :=
    match entries with
    | [] => Normal acc
    | (k, v) :: rest => v' ← f v; go rest (set_prop k v' acc)
    end.

(** [btoa]: fails on a code unit above 255. *)
Definition btoa (codes : list N) : Completion string :=
  if forallb (λ c, c <=? 255)%N codes then Normal (Base64.encode codes)
  else Throw (error_object "InvalidCharacterError"
                "The string to be encoded contains characters outside of the Latin1 range.").

(** [Date.prototype.toISOString]. *)
Definition toISOString (tv : option Z) : Completion string :=
  match tv with
  | Some t => Normal (DateTime.iso_of_time t)
  | None => Throw (error_object "RangeError" "Invalid time value")
  end.

(** ** The script engine *)

(** Built-ins whose result is implementation-defined or needs machinery
    the bridge never relies on. *)
Record Engine := {
  (** [Number::toString] of a value that is not a small integer *)
  Number_repr : number → string;
  (** [Date.prototype.toString], which depends on the local time zone *)
  Date_toString : option Z → string;
  (** [ToPrimitive] of an object that has an own [toString] property *)
  ToPrimitive_own : JsValue → Completion string;
  (** [Date.parse] of a string that is not a complete UTC ISO-8601 instant;
      [None] is NaN *)
  Date_parse_other : string → option Z;
  (** [JSON.parse] *)
  JSON_parse : string → Completion JsValue;
}.

Section Conversions.
Context (engine : Engine).

(** [Number::toString] in radix 10. *)
Definition Number_toString (n : number) : string :=
  match n with
  | NInt z =>
      if Z.abs z <? 10 ^ 21 then pretty z else Number_repr engine n
  | NNegZero => "0"
  | NNaN => "NaN"
  | NInfinity neg => if neg then "-Infinity" else "Infinity"
  | NDyadic _ _ _ => Number_repr engine n
  end.

Definition join (sep : string) (parts : list string) : string :=
  match parts with
  | [] => ""
  | p :: ps => fold_left (λ acc q, acc +:+ sep +:+ q) ps p
  end.

(** [ToString], as applied by [String(v)] and by template literals. *)
Fixpoint ToString (v : JsValue) : Completion string :=
  match v with
  | JUndefined => Normal "undefined"
  | JNull => Normal "null"
  | JBool b => Normal (if b then "true" else "false")
  | JNum n => Normal (Number_toString n)
  | JStr s => Normal s
  | JDate tv => Normal (Date_toString engine tv)
  | JArrayBuffer _ => Normal "[object ArrayBuffer]"
  | JTypedArray elems => Normal (join "," (Number_toString <$> elems))
  | JArray items =>
      join "," <$>
        mapM (λ x, match x with
                   | JUndefined | JNull => Normal ""
                   | _ => ToString x
                   end) items
  | JSet _ => Normal "[object Set]"
  | JObject ps =>
      match lookup_prop "toString" ps with
      | None => Normal "[object Object]"
      | Some _ => ToPrimitive_own engine v
      end
  | JInstance _ repr _ => Normal repr
  | JFunction _ repr => Normal repr
  end.

(** [new Date(s).getTime()], [None] for NaN. *)
Definition Date_parse (s : string) : option Z :=
  match DateTime.parse_utc_iso s with
  | Some t => Some t
  | None => Date_parse_other engine s
  end.

End Conversions.

(** ** The state of the page *)

Inductive ReadyState := CONNECTING | OPEN | CLOSING | CLOSED.

#[global] Instance ReadyState_eq_dec : EqDecision ReadyState.
Proof. solve_decision. Defined.

Record Socket := {
  readyState : ReadyState;
  sub_protocols : option (list string);  (* second argument of [new WebSocket] *)
}.

(** A listener is a function object; [!==] compares references, so a
    listener is identified by a number and its behaviour is looked up in
    the environment. *)
Definition Listener := nat.

(** The two closures [invoke] hands to [transformCallback]:
    [(result) => resolve(result)] and [(error) => reject(error)] of the
    promise numbered [p]. *)
Inductive Callback :=
| CbResolve (p : nat)
| CbReject (p : nat).

(** The function [transformCallback] stores under [window[prop]], given by
    the variables it closes over. *)
Record Resolver := {
  once : bool;
  callback : option Callback;
  isAsync : bool;
}.

Inductive PromiseState :=
| Pending
| Fulfilled (v : JsValue)
| Rejected (e : JsValue)
| Following (thenable : JsValue).  (* resolved with a thenable, outcome left to it *)

(** An outstanding timeout; its function is always
    [PyOrionConnections.connect]. *)
Record Timer := {
  timer_id : nat;
  timer_delay : Z;
}.

Record LogEntry := {
  log_level : string;
  log_args : list JsValue;
}.

Record World := {
  (* first script: the connection manager and the event dispatcher *)
  ws : option nat;                           (* [ws]: index into [sockets] *)
  sockets : list Socket;                     (* every WebSocket created so far *)
  wire : list (nat * JsValue);               (* [ws.send(JSON.stringify(v))]: socket and [v] *)
  eventListeners : gmap string (list Listener);
  reconnectTimer : option nat;
  shouldReconnect : bool;
  timers : list Timer;                       (* timeouts set and not yet fired or cleared *)
  next_timer : nat;
  console : list LogEntry;
  (* second script: the invocation broker *)
  window : gmap string Resolver;             (* the properties [_<id>] of [window] *)
  promises : list PromiseState;              (* the promises [invoke] has returned *)
  microtasks : list (Callback * JsValue);    (* continuations after an [await] *)
  draws : nat;                               (* random values consumed so far *)
}.

Definition with_ws (x : option nat) (w : World) : World :=
  {| ws := x; sockets := sockets w; wire := wire w;
     eventListeners := eventListeners w; reconnectTimer := reconnectTimer w;
     shouldReconnect := shouldReconnect w; timers := timers w;
     next_timer := next_timer w; console := console w; window := window w;
     promises := promises w; microtasks := microtasks w; draws := draws w |}.

Definition with_sockets (x : list Socket) (w : World) : World :=
  {| ws := ws w; sockets := x; wire := wire w;
     eventListeners := eventListeners w; reconnectTimer := reconnectTimer w;
     shouldReconnect := shouldReconnect w; timers := timers w;
     next_timer := next_timer w; console := console w; window := window w;
     promises := promises w; microtasks := microtasks w; draws := draws w |}.

Definition with_wire (x : list (nat * JsValue)) (w : World) : World :=
  {| ws := ws w; sockets := sockets w; wire := x;
     eventListeners := eventListeners w; reconnectTimer := reconnectTimer w;
     shouldReconnect := shouldReconnect w; timers := timers w;
     next_timer := next_timer w; console := console w; window := window w;
     promises := promises w; microtasks := microtasks w; draws := draws w |}.

Definition with_eventListeners (x : gmap string (list Listener)) (w : World) : World :=
  {| ws := ws w; sockets := sockets w; wire := wire w;
     eventListeners := x; reconnectTimer := reconnectTimer w;
     shouldReconnect := shouldReconnect w; timers := timers w;
     next_timer := next_timer w; console := console w; window := window w;
     promises := promises w; microtasks := microtasks w; draws := draws w |}.

Definition with_reconnectTimer (x : option nat) (w : World) : World :=
  {| ws := ws w; sockets := sockets w; wire := wire w;
     eventListeners := eventListeners w; reconnectTimer := x;
     shouldReconnect := shouldReconnect w; timers := timers w;
     next_timer := next_timer w; console := console w; window := window w;
     promises := promises w; microtasks := microtasks w; draws := draws w |}.

Definition with_shouldReconnect (x : bool) (w : World) : World :=
  {| ws := ws w; sockets := sockets w; wire := wire w;
     eventListeners := eventListeners w; reconnectTimer := reconnectTimer w;
     shouldReconnect := x; timers := timers w;
     next_timer := next_timer w; console := console w; window := window w;
     promises := promises w; microtasks := microtasks w; draws := draws w |}.

Definition with_timers (x : list Timer) (n : nat) (w : World) : World :=
  {| ws := ws w; sockets := sockets w; wire := wire w;
     eventListeners := eventListeners w; reconnectTimer := reconnectTimer w;
     shouldReconnect := shouldReconnect w; timers := x;
     next_timer := n; console := console w; window := window w;
     promises := promises w; microtasks := microtasks w; draws := draws w |}.

Definition with_console (x : list LogEntry) (w : World) : World :=
  {| ws := ws w; sockets := sockets w; wire := wire w;
     eventListeners := eventListeners w; reconnectTimer := reconnectTimer w;
     shouldReconnect := shouldReconnect w; timers := timers w;
     next_timer := next_timer w; console := x; window := window w;
     promises := promises w; microtasks := microtasks w; draws := draws w |}.

Definition with_window (x : gmap string Resolver) (w : World) : World :=
  {| ws := ws w; sockets := sockets w; wire := wire w;
     eventListeners := eventListeners w; reconnectTimer := reconnectTimer w;
     shouldReconnect := shouldReconnect w; timers := timers w;
     next_timer := next_timer w; console := console w; window := x;
     promises := promises w; microtasks := microtasks w; draws := draws w |}.

Definition with_promises (x : list PromiseState) (w : World) : World :=
  {| ws := ws w; sockets := sockets w; wire := wire w;
     eventListeners := eventListeners w; reconnectTimer := reconnectTimer w;
     shouldReconnect := shouldReconnect w; timers := timers w;
     next_timer := next_timer w; console := console w; window := window w;
     promises := x; microtasks := microtasks w; draws := draws w |}.

Definition with_microtasks (x : list (Callback * JsValue)) (w : World) : World :=
  {| ws := ws w; sockets := sockets w; wire := wire w;
     eventListeners := eventListeners w; reconnectTimer := reconnectTimer w;
     shouldReconnect := shouldReconnect w; timers := timers w;
     next_timer := next_timer w; console := console w; window := window w;
     promises := promises w; microtasks := x; draws := draws w |}.

Definition with_draws (x : nat) (w : World) : World :=
  {| ws := ws w; sockets := sockets w; wire := wire w;
     eventListeners := eventListeners w; reconnectTimer := reconnectTimer w;
     shouldReconnect := shouldReconnect w; timers := timers w;
     next_timer := next_timer w; console := console w; window := window w;
     promises := promises w; microtasks := microtasks w; draws := x |}.

(** The variables as the scripts initialise them, before
    [PyOrionConnections.connect()] runs at the end of the first one. *)
Definition initial_world : World :=
  {| ws := None; sockets := []; wire := []; eventListeners := ∅;
     reconnectTimer := None; shouldReconnect := true; timers := [];
     next_timer := 1%nat; console := []; window := ∅; promises := [];
     microtasks := []; draws := 0%nat |}.

(** Statements: state passing with exceptions. *)
Definition Script (A : Type) : Type := World → Completion A * World.

Definition script_ret {A} (a : A) : Script A := λ w, (Normal a, w).

Definition script_bind {A B} (m : Script A) (k : A → Script B) : Script B :=
  λ w, match m w with
       | (Normal a, w') => k a w'
       | (Throw e, w') => (Throw e, w')
       end.

Definition script_throw {A} (e : JsValue) : Script A := λ w, (Throw e, w).

(** [try { body } catch (err) { handler }]. *)
Definition try_catch {A} (body : Script A) (handler : JsValue → Script A) : Script A :=
  λ w, match body w with
       | (Normal a, w') => (Normal a, w')
       | (Throw e, w') => handler e w'
       end.

(** Lift a pure computation that may throw, or a plain state change. *)
Definition script_lift {A} (c : Completion A) : Script A := λ w, (c, w).
Definition script_do (f : World → World) : Script unit := λ w, (Normal (), f w).

Declare Scope script_scope.
Delimit Scope script_scope with script.
Notation "x <~ m ;; k" := (script_bind m (λ x, k))
  (at level 100, m at next level, right associativity) : script_scope.
Notation "m ;;; k" := (script_bind m (λ _, k))
  (at level 100, right associativity) : script_scope.

Definition console_log (level : string) (args : list JsValue) : Script unit :=
  script_do (λ w, with_console (console w ++ [ {| log_level := level; log_args := args |} ]) w).

(** ** The page environment *)

(** The values substituted for the [__TEMPLATE_*__] placeholders; [None]
    stands for [null]. *)
Record Template := {
  tpl_url : option string;
  tpl_protocols : option (list string);
  tpl_reconnect_interval : option Z;
  tpl_auto_reconnect : option bool;
}.

Record Env := {
  engine :> Engine;
  template : Template;
  (** the k-th number [crypto.getRandomValues] delivers *)
  random_u32 : nat → N;
  (** what calling a registered listener does *)
  listener_fn : Listener → JsValue → Script unit;
}.

(** ** First script: connection manager and event dispatcher *)

Module Connection.
Section Connection.
Context (env : Env).
#[local] Open Scope script_scope.

Fixpoint jsonMakeObjectSafe (obj : JsValue) : Completion JsValue :=
  match obj with
  | JNull | JUndefined => Normal JNull
  (* primitive values *)
  | JStr _ | JNum _ | JBool _ => Normal obj
  (* Date / Path -> string *)
  | JDate tv => JStr <$> toISOString tv
  (* ArrayBuffer / typed array -> base64 *)
  | JArrayBuffer bytes => JStr <$> btoa (Byte.to_N <$> bytes)
  | JTypedArray elems => JStr <$> btoa (ToUint16 <$> elems)
  (* [typeof obj === "object" && !Array.isArray(obj)] *)
  | JObject ps | JInstance _ _ ps =>
      if constructor_named_Path obj then JStr <$> ToString env obj
      else JObject <$> assign_entries jsonMakeObjectSafe ps []
  | JSet _ =>
      (* a Set is an object and not an array, and [Object.entries] of a
         Set is empty *)
      JObject <$> assign_entries jsonMakeObjectSafe [] []
  (* [Array.isArray(obj) || obj instanceof Set] *)
  | JArray items => JArray <$> mapM jsonMakeObjectSafe items
  (* fallback *)
  | JFunction _ _ => JStr <$> ToString env obj
  end.

(** [config], built from the template. *)
Definition config_protocols : option (list string) := tpl_protocols (template env).

Definition config_reconnectInterval : Z :=
  match tpl_reconnect_interval (template env) with
  | Some n => if n =? 0 then 3000 else n
  | None => 3000
  end.

Definition config_autoReconnect : bool := default true (tpl_auto_reconnect (template env)).

(** The names every object inherits from [Object.prototype]: looked up
    on [eventListeners] they give a function, not a listener list, unless
    an own property shadows them. *)
Definition Object_prototype_names : list string :=
  [ "constructor"; "hasOwnProperty"; "isPrototypeOf"; "propertyIsEnumerable";
    "toLocaleString"; "toString"; "valueOf"; "__defineGetter__"; "__defineSetter__";
    "__lookupGetter__"; "__lookupSetter__" ].

Definition inherited (event : string) : bool :=
  bool_decide (event ∈ Object_prototype_names).

Definition not_a_function (method : string) : JsValue :=
  error_object "TypeError" ("eventListeners[event]." +:+ method +:+ " is not a function").

Definition addEventListener (event : string) (listener : Listener) : Script unit :=
  λ w, match eventListeners w !! event with
       | Some ls =>
           (Normal (), with_eventListeners (<[event := ls ++ [listener]]> (eventListeners w)) w)
       | None =>
           if inherited event then (Throw (not_a_function "push"), w)
           else (Normal (), with_eventListeners (<[event := [listener]]> (eventListeners w)) w)
       end.

Definition removeEventListener (event : string) (listener : Listener) : Script unit :=
  λ w, match eventListeners w !! event with
       | Some ls =>
           (Normal (),
            with_eventListeners
              (<[event := filter (λ l, l ≠ listener) ls]> (eventListeners w)) w)
       | None =>
           if inherited event then (Throw (not_a_function "filter"), w)
           else (Normal (), w)
       end.

Definition removeAllEventListeners (event : string) : Script unit :=
  script_do (λ w,
    match eventListeners w !! event with
    | Some _ => with_eventListeners (<[event := []]> (eventListeners w)) w
    | None =>
        if inherited event then with_eventListeners (<[event := []]> (eventListeners w)) w
        else w
    end).

(** [array.forEach(x => f(x))] over the array as it is when the call
    starts; the program never writes to an index of a listener array. *)
Fixpoint forEach {A} (xs : list A) (f : A → Script unit) : Script unit :=
  match xs with
  | [] => script_ret ()
  | x :: rest => f x ;;; forEach rest f
  end.

Definition dispatchEvent (event : string) (data : JsValue) : Script unit :=
  λ w, match eventListeners w !! event with
       | Some ls => forEach ls (λ listener, listener_fn env listener data) w
       | None =>
           if inherited event then (Throw (not_a_function "forEach"), w)
           else (Normal (), w)
       end.

(** [setTimeout(PyOrionConnections.connect, delay)]. *)
Definition setTimeout_connect (delay : Z) : Script nat :=
  λ w, let id := next_timer w in
       (Normal id,
        with_timers (timers w ++ [ {| timer_id := id; timer_delay := delay |} ]) (S id) w).

Definition clearTimeout (handle : option nat) : Script unit :=
  script_do (λ w,
    match handle with
    | Some id => with_timers (filter (λ t, timer_id t ≠ id) (timers w)) (next_timer w) w
    | None => w
    end).

(** [new WebSocket(url, protocols)]; the address is taken to be one the
    constructor accepts. *)
Definition new_WebSocket (protocols : option (list string)) : Script nat :=
  λ w, (Normal (List.length (sockets w)),
        with_sockets
          (sockets w ++ [ {| readyState := CONNECTING; sub_protocols := protocols |} ]) w).

Definition url_configured : bool :=
  match tpl_url (template env) with
  | Some u => negb (String.eqb u "")
  | None => false
  end.

Definition connect : Script unit :=
  if negb url_configured then
    console_log "error" [JStr "PyOrionConnections: No URL configured."]
  else
    script_do (with_shouldReconnect config_autoReconnect) ;;;
    sock <~ new_WebSocket config_protocols ;;
    script_do (with_ws (Some sock)).

(** The four handlers [connect] installs on every socket it creates. *)
Definition ws_onopen (e : JsValue) : Script unit := dispatchEvent "open" e.
Definition ws_onmessage (e : JsValue) : Script unit := dispatchEvent "message" (Get e "data").
Definition ws_onerror (e : JsValue) : Script unit := dispatchEvent "error" e.

Definition ws_onclose (e : JsValue) : Script unit :=
  dispatchEvent "close" e ;;;
  λ w, if shouldReconnect w then
         (id <~ setTimeout_connect config_reconnectInterval ;;
          script_do (with_reconnectTimer (Some id))) w
       else (Normal (), w).

Definition current_readyState (w : World) : option ReadyState :=
  sock ← ws w; readyState <$> sockets w !! sock.

Definition send (data : JsValue) : Script unit :=
  λ w, match ws w, current_readyState w with
       | Some sock, Some OPEN =>
           (payload <~ script_lift (jsonMakeObjectSafe data) ;;
            script_do (λ w, with_wire (wire w ++ [(sock, payload)]) w)) w
       | _, _ => console_log "warn" [JStr "PyOrionConnections: Connection not open."] w
       end.

Definition set_readyState (sock : nat) (st : ReadyState) (w : World) : World :=
  with_sockets
    (alter (λ s, {| readyState := st; sub_protocols := sub_protocols s |}) sock (sockets w)) w.

Definition utf8_length (s : string) : nat :=
  fold_right (λ c n, ((if (N_of_ascii c <? 128)%N then 1 else 2) + n)%nat) 0%nat
    (list_ascii_of_string s).

(** [ws.close(code, reason)] on the socket [sock]. *)
Definition WebSocket_close (sock : nat) (code : Z) (reason : string) : Script unit :=
  if negb ((code =? 1000) || ((3000 <=? code) && (code <=? 4999))) then
    script_throw (error_object "InvalidAccessError" "The close code is not allowed.")
  else if (123 <? utf8_length reason)%nat then
    script_throw (error_object "SyntaxError" "The close reason is too long.")
  else
    script_do (λ w,
      match readyState <$> sockets w !! sock with
      | Some CONNECTING | Some OPEN => set_readyState sock CLOSING w
      | _ => w
      end).

Definition close (code : option Z) (reason : option string) : Script unit :=
  script_do (with_shouldReconnect false) ;;;
  (λ w, clearTimeout (reconnectTimer w) w) ;;;
  λ w, match ws w with
       | Some sock =>
           WebSocket_close sock (default 1000 code) (default "Normal Closure" reason) w
       | None => (Normal (), w)
       end.

Definition is_connected (w : World) : bool :=
  match current_readyState w with
  | Some OPEN => true
  | _ => false
  end.

Definition is_disconnected (w : World) : bool :=
  match ws w with
  | None => true
  | Some _ => match current_readyState w with Some CLOSED => true | _ => false end
  end.

(** Turns of the event loop that reach the first script. *)

(** A socket that has not closed yet closes: it becomes [CLOSED] and its
    [onclose] handler runs. *)
Definition socket_closes (sock : nat) (e : JsValue) : Script unit :=
  λ w, match readyState <$> sockets w !! sock with
       | Some CLOSED | None => (Normal (), w)
       | Some _ => ws_onclose e (set_readyState sock CLOSED w)
       end.

(** A connecting socket opens. *)
Definition socket_opens (sock : nat) (e : JsValue) : Script unit :=
  λ w, match readyState <$> sockets w !! sock with
       | Some CONNECTING => ws_onopen e (set_readyState sock OPEN w)
       | _ => (Normal (), w)
       end.

(** An outstanding timeout fires: it leaves the timer list and runs
    [PyOrionConnections.connect]. *)
Definition timer_fires (id : nat) : Script unit :=
  λ w, if existsb (λ t, Nat.eqb (timer_id t) id) (timers w) then
         connect (with_timers (filter (λ t, timer_id t ≠ id) (timers w)) (next_timer w) w)
       else (Normal (), w).

End Connection.
End Connection.

(** ** Second script: the invocation broker *)

Module Broker.
Section Broker.
Context (env : Env).
#[local] Open Scope script_scope.

(** [window.crypto.getRandomValues(new Uint32Array(1))[0]]. *)
Definition uid : Script N :=
  λ w, (Normal (random_u32 env (draws w) mod 2 ^ 32)%N, with_draws (S (draws w)) w).

Fixpoint jsonMakeObjectSafe (obj : JsValue) : Completion JsValue :=
  match obj with
  | JNull | JUndefined => Normal JNull
  | JStr _ | JNum _ | JBool _ => Normal obj
  | JDate tv => JStr <$> toISOString tv
  | JArrayBuffer bytes => JStr <$> btoa (Byte.to_N <$> bytes)
  | JTypedArray elems => JStr <$> btoa (ToUint16 <$> elems)
  (* [Array.isArray(obj) || obj instanceof Set] *)
  | JArray items | JSet items => JArray <$> mapM jsonMakeObjectSafe items
  | JObject ps | JInstance _ _ ps =>
      if constructor_named_Path obj then JStr <$> ToString env obj
      (* [typeof obj === "object" && obj.constructor === Object] *)
      else if constructor_is_Object obj then
        JObject <$> assign_entries jsonMakeObjectSafe ps []
      else JStr <$> ToString env obj
  | JFunction _ _ => JStr <$> ToString env obj
  end.

(** The template literal [`data:${obj.media_type};base64,${obj.bytes}`]. *)
Definition data_url (obj : JsValue) : Completion JsValue :=
  media_type ← ToString env (Get obj "media_type");
  bytes ← ToString env (Get obj "bytes");
  Normal (JStr ("data:" +:+ media_type +:+ ";base64," +:+ bytes)).

(** [obj.media_type && obj.bytes]. *)
Definition is_media_object (obj : JsValue) : bool :=
  truthy (Get obj "media_type") && truthy (Get obj "bytes").

Fixpoint jsonRestoreObjectSync (obj : JsValue) : Completion JsValue :=
  match obj with
  | JNull | JUndefined => Normal JNull
  | JStr s =>
      if DateTime.iso_prefix s then
        match Date_parse env s with
        | Some t => Normal (JDate (Some t))
        | None => Normal obj
        end
      else Normal obj
  | JArray items => JArray <$> mapM jsonRestoreObjectSync items
  | JObject ps | JInstance _ _ ps =>
      if constructor_is_Object obj then
        if is_media_object obj then data_url obj
        else JObject <$> assign_entries jsonRestoreObjectSync ps []
      else Normal obj
  | _ => Normal obj
  end.

(** The regular expression [/^data:.*;base64,/]; [.] stops at a line
    terminator. *)
Fixpoint then_base64_marker (s : string) : bool :=
  String.prefix ";base64," s ||
  match s with
  | String c rest =>
      negb (Ascii.eqb c "010" || Ascii.eqb c "013") && then_base64_marker rest
  | EmptyString => false
  end.

Definition data_uri_prefix (s : string) : bool :=
  String.prefix "data:" s && then_base64_marker (String.substring 5 (String.length s - 5) s).

(** The outcome with which the promise returned by the asynchronous
    decoder settles: [Normal] for fulfilment, [Throw] for rejection.
    [Promise.all] keeps the order of its input. *)
Fixpoint jsonRestoreObjectAsync (obj : JsValue) : Completion JsValue :=
  match obj with
  | JNull | JUndefined => Normal JNull
  | JStr s => if data_uri_prefix s then Normal obj else Normal obj
  | JArray items => JArray <$> mapM jsonRestoreObjectAsync items
  | JObject ps | JInstance _ _ ps =>
      if constructor_is_Object obj then
        if is_media_object obj then data_url obj
        else JObject <$> assign_entries jsonRestoreObjectAsync ps []
      else Normal obj
  | _ => Normal obj
  end.

(** Promises. *)
Definition new_Promise : Script nat :=
  λ w, (Normal (List.length (promises w)), with_promises (promises w ++ [Pending]) w).

Definition is_thenable (v : JsValue) : bool :=
  match v with
  | JObject ps | JInstance _ _ ps =>
      match lookup_prop "then" ps with Some (JFunction _ _) => true | _ => false end
  | _ => false
  end.

(** Only a pending promise changes state. *)
Definition settle (p : nat) (st : PromiseState) (w : World) : World :=
  match promises w !! p with
  | Some Pending => with_promises (<[p := st]> (promises w)) w
  | _ => w
  end.

Definition run_callback (cb : Callback) (v : JsValue) (w : World) : World :=
  match cb with
  | CbResolve p => settle p (if is_thenable v then Following v else Fulfilled v) w
  | CbReject p => settle p (Rejected v) w
  end.

(** [callback && callback.constructor &&
     callback.constructor.name === "AsyncFunction"]: both closures are
    arrow functions. *)
Definition is_AsyncFunction (cb : option Callback) : bool :=
  match cb with
  | Some (CbResolve _) | Some (CbReject _) => false
  | None => false
  end.

Definition prop_of (identifier : N) : string :=
  "_" +:+ Number_toString env (NInt (Z.of_N identifier)).

Definition transformCallback (cb : option Callback) (once : bool) : Script N :=
  identifier <~ uid ;;
  script_do (λ w,
    with_window
      (<[prop_of identifier :=
           {| once := once; callback := cb; isAsync := is_AsyncFunction cb |}]>
         (window w)) w) ;;;
  script_ret identifier.

(** Calling the function stored under [window[prop]].  It is an async
    function, so nothing it throws reaches the caller; the property it
    deletes is the one it is stored under. *)
Definition call_resolver (prop : string) (r : Resolver) (result : JsValue) (w : World)
  : World :=
  let w := if once r then with_window (delete prop (window w)) w else w in
  match callback r with
  | None => w
  | Some cb =>
      if isAsync r then
        match jsonRestoreObjectAsync result with
        | Normal restored => with_microtasks (microtasks w ++ [(cb, restored)]) w
        | Throw _ => w
        end
      else
        match jsonRestoreObjectSync result with
        | Normal restored => run_callback cb restored w
        | Throw _ => w
        end
  end.

Definition invoke (cmd args : JsValue) : Script nat :=
  p <~ new_Promise ;;
  try_catch
    (λ w, if negb (Connection.is_connected w) then
            script_do
              (run_callback (CbReject p)
                 (error_object "Error" "Socket is not connected or unavailable!")) w
          else
            (py_args <~ script_lift (jsonMakeObjectSafe (nullish_or args (JObject []))) ;;
             result_id <~ transformCallback (Some (CbResolve p)) true ;;
             error_id <~ transformCallback (Some (CbReject p)) true ;;
             let message :=
               JObject [ ("cmd", cmd);
                         ("result_id", JNum (NInt (Z.of_N result_id)));
                         ("error_id", JNum (NInt (Z.of_N error_id)));
                         ("payload", py_args) ] in
             Connection.send env message) w)
    (λ err, script_do (run_callback (CbReject p) err)) ;;;
  script_ret p.

(** The properties named [_...] that [window] inherits from
    [Object.prototype]: [window[prop]] finds them when [window] has no
    property [prop] of its own. *)
Definition Window_inherited_names : list string :=
  [ "__proto__"; "__defineGetter__"; "__defineSetter__";
    "__lookupGetter__"; "__lookupSetter__" ].

Definition window_inherited (prop : string) : bool :=
  bool_decide (prop ∈ Window_inherited_names).

(** [if (window[prop]) window[prop](payload)] when [window] has no
    property [prop] of its own.  [__proto__] is [Window.prototype], an
    object that cannot be called; [__defineGetter__] and
    [__defineSetter__] are called without their second argument, the
    accessor function; [__lookupGetter__] and [__lookupSetter__] convert
    [payload] to a property key and look it up, which changes nothing.
    The wording of the [TypeError]s is the engine's; the listener
    discards it. *)
Definition call_inherited (prop : string) (payload : JsValue) : Script unit :=
  if String.eqb prop "__proto__" then
    script_throw (error_object "TypeError" "window[prop] is not a function")
  else if String.eqb prop "__defineGetter__" || String.eqb prop "__defineSetter__" then
    script_throw (error_object "TypeError" "Expecting function")
  else if String.eqb prop "__lookupGetter__" || String.eqb prop "__lookupSetter__" then
    script_lift (ToString env payload) ;;; script_ret ()
  else script_ret ().

(** One [if (id) { const prop = `_${id}`; if (window[prop]) window[prop](payload); }]
    block of the message listener. *)
Definition deliver (id payload : JsValue) : Script unit :=
  if truthy id then
    s <~ script_lift (ToString env id) ;;
    let prop := "_" +:+ s in
    λ w, match window w !! prop with
         | Some r => (Normal (), call_resolver prop r payload w)
         | None => call_inherited prop payload w
         end
  else script_ret ().

(** [jsonMakeObjectSafe(JSON.parse(raw))]. *)
Definition parse_frame (raw : JsValue) : Completion JsValue :=
  text ← ToString env raw;
  parsed ← JSON_parse env text;
  jsonMakeObjectSafe parsed.

(** The [try] block of the message listener. *)
Definition handle_message (raw : JsValue) : Script unit :=
  data <~ script_lift (parse_frame raw) ;;
  match data with
  | JNull =>
      (* destructuring [null] *)
      script_throw (error_object "TypeError" "Cannot destructure 'data' as it is null.")
  | _ =>
      deliver (Get data "result_id") (Get data "result") ;;;
      deliver (Get data "error_id") (Get data "error")
  end.

(** The listener the script registers with
    [PyOrionConnections.on("message", ...)]. *)
Definition on_message (raw : JsValue) : Script unit :=
  try_catch (handle_message raw)
    (λ err, console_log "warn" [JStr "Invalid message received:"; raw]).

(** The top level of the script: [PyOrionConnections.on("message", ...)],
    where [listener] is the function object of the message listener
    (the environment gives it the behaviour [on_message]). *)
Definition load (listener : Listener) : Script unit :=
  Connection.addEventListener "message" listener.

(** The continuations of [await]: run the oldest one. *)
Definition run_microtask : Script unit :=
  script_do (λ w,
    match microtasks w with
    | (cb, v) :: rest => run_callback cb v (with_microtasks rest w)
    | [] => w
    end).

End Broker.
End Broker.

(** ** Predicates used in the statements *)

(** Every object of the value lists each own key once, as
    [Object.entries] does. *)
Fixpoint wf_value (v : JsValue) : bool :=
  match v with
  | JArray items | JSet items => forallb wf_value items
  | JObject ps | JInstance _ _ ps =>
      forallb (λ kv, wf_value kv.2) ps && bool_decide (NoDup ps.*1)
  | _ => true
  end.

(** The values [jsonMakeObjectSafe] of the broker returns: JSON data in
    which an own [constructor] property, if any, holds a string. *)
Fixpoint wire_safe (v : JsValue) : bool :=
  match v with
  | JNull | JBool _ | JNum _ | JStr _ => true
  | JArray items => forallb wire_safe items
  | JObject ps =>
      forallb (λ kv, wire_safe kv.2) ps && bool_decide (NoDup ps.*1)
      && match lookup_prop "constructor" ps with
         | Some (JStr _) | None => true
         | Some _ => false
         end
  | _ => false
  end.

(** No object of the value has an own property named [__proto__]. An
    assignment [safe["__proto__"] = v] does not create such a property:
    it replaces the prototype of [safe], which the model leaves out. *)
Fixpoint no_proto_key (v : JsValue) : bool :=
  match v with
  | JArray items | JSet items => forallb no_proto_key items
  | JObject ps | JInstance _ _ ps =>
      forallb (λ kv, negb (String.eqb kv.1 "__proto__") && no_proto_key kv.2) ps
  | _ => true
  end.

(** Every number of the value is one [JSON.stringify] writes as itself:
    it is finite and is not [-0] ([NaN] and the infinities are written
    as [null], [-0] as [0]). *)
Fixpoint json_numbers (v : JsValue) : bool :=
  match v with
  | JNum (NInt _) | JNum (NDyadic _ _ _) => true
  | JNum _ => false
  | JArray items | JSet items => forallb json_numbers items
  | JObject ps | JInstance _ _ ps => forallb (λ kv, json_numbers kv.2) ps
  | _ => true
  end.

Section Lossless.
Context (env : Env).

(** The values the codec carries without loss: [null], numbers,
    booleans, strings the decoder does not read as a date, valid dates
    with a four-digit year, and arrays and plain objects of these whose
    keys are distinct, are not [constructor] or [__proto__], and do not
    make the object a media object. *)
Fixpoint lossless (v : JsValue) : bool :=
  match v with
  | JNull | JBool _ | JNum _ => true
  | JStr s =>
      negb (DateTime.iso_prefix s)
      || match Date_parse env s with None => true | Some _ => false end
  | JDate (Some t) => DateTime.four_digit_year t
  | JArray items => forallb lossless items
  | JObject ps =>
      forallb (λ kv, lossless kv.2) ps
      && bool_decide (NoDup ps.*1)
      && bool_decide ("constructor" ∉ ps.*1)
      && bool_decide ("__proto__" ∉ ps.*1)
      && negb (Broker.is_media_object v)
  | _ => false
  end.


End Lossless.

(** The (identifier, payload) pairs on which the message listener acts:
    the fields [result_id] and [error_id] that pass the [if], in the order
    of the two blocks. *)
Definition deliveries (data : JsValue) : list (JsValue * JsValue) :=
  List.filter (λ d, truthy d.1)
    [ (Get data "result_id", Get data "result");
      (Get data "error_id", Get data "error") ].


(** The resolver [transformCallback(cb, true)] registers. *)
Definition one_shot (cb : Callback) : Resolver :=
  {| once := true; callback := Some cb; isAsync := false |}.

(** Encode, then decode (immediate variant). *)
Definition round_trip (env : Env) (v : JsValue) : Completion JsValue :=
  Broker.jsonMakeObjectSafe env v ≫= Broker.jsonRestoreObjectSync env.

(** Every registered resolver deletes itself when called. *)
Definition all_one_shot (w : World) : Prop :=
  ∀ prop r, window w !! prop = Some r → once r = true.

(** Entry-wise image of a property list under [f]. *)
Definition entries_map (f : JsValue → Completion JsValue)
  (ps out : list (string * JsValue)) : Prop :=
  Forall2 (λ kv kv', kv'.1 = kv.1 ∧ f kv.2 = Normal kv'.2) ps out.

(** The month and day of one day of a year that starts on 1 March,
    checked against the inverse formula; only the last day can be
    29 February. *)
Definition month_day_ok (doy : Z) : bool :=
  let mp := (5 * doy + 2) / 153 in
  let d := doy - (153 * mp + 2) / 5 + 1 in
  let m := if mp <? 10 then mp + 3 else mp - 9 in
  (1 <=? m) && (m <=? 12) && (1 <=? d)
  && (d <=? (if m =? 2 then (if doy =? 365 then 29 else 28)
             else if (m =? 4) || (m =? 6) || (m =? 9) || (m =? 11) then 30 else 31))
  && ((153 * (if 2 <? m then m - 3 else m + 9) + 2) / 5 + d - 1 =? doy)
  && (Bool.eqb (m <=? 2) (306 <=? doy)).

Fixpoint all_from (fuel : nat) (z : Z) (f : Z → bool) : bool :=
  match fuel with
  | O => true
  | S fuel' => f z && all_from fuel' (z + 1) f
  end.

(** ** A concrete page, for the examples *)

(** An engine whose [JSON.parse] knows the frames of the examples (written
    here without their quotation marks) and rejects every other text. *)
Definition demo_engine : Engine :=
  {| Number_repr := λ _, "1e+21";
     Date_toString := λ _, "Invalid Date";
     ToPrimitive_own := λ _,
       Throw (error_object "TypeError" "Cannot convert object to primitive value");
     Date_parse_other := λ _, None;
     JSON_parse := λ text,
       if String.eqb text "{result_id:7,result:42}" then
         Normal (JObject [("result_id", JNum (NInt 7)); ("result", JNum (NInt 42))])
       else if String.eqb text "{error_id:9,error:busy}" then
         Normal (JObject [("error_id", JNum (NInt 9)); ("error", JStr "busy")])
       else Throw (error_object "SyntaxError" "Unexpected token") |}.

(** Listener 1 is [() => { throw new Error("boom") }], listener 2 is
    [() => console.log("second")], every other listener does nothing;
    the random source delivers 7, then 9. *)
Definition demo_env : Env :=
  {| engine := demo_engine;
     template := {| tpl_url := Some "ws://127.0.0.1:8765"; tpl_protocols := None;
                    tpl_reconnect_interval := None; tpl_auto_reconnect := None |};
     random_u32 := λ k, match k with O => 7%N | _ => 9%N end;
     listener_fn := λ l _,
       match l with
       | 1%nat => script_throw (error_object "Error" "boom")
       | 2%nat => console_log "log" [JStr "second"]
       | _ => script_ret ()
       end |}.

(** The page after the first script has run [connect()]. *)
Definition demo_connecting : World := (Connection.connect demo_env initial_world).2.

(** ... and after the socket has opened. *)
Definition demo_open : World := (Connection.socket_opens demo_env 0 JNull demo_connecting).2.

(** ... and after [invoke("echo", {value: 42})]. *)
Definition demo_invoked : World :=
  (Broker.invoke demo_env (JStr "echo") (JObject [("value", JNum (NInt 42))]) demo_open).2.

(** The frames of the examples. *)
Definition result_frame : JsValue := JStr "{result_id:7,result:42}".
Definition error_frame : JsValue := JStr "{error_id:9,error:busy}".

(** A page on which the application has called
    [PyOrionConnections.connect()] once more, so that two sockets exist. *)
Definition demo_two_sockets : World := (Connection.connect demo_env demo_connecting).2.

(** ... and on which first one socket and then the other has closed,
    no timer having fired in between. *)
Definition demo_two_closes : World :=
  (Connection.socket_closes demo_env 1 JNull
     (Connection.socket_closes demo_env 0 JNull demo_two_sockets).2).2.

(** A page with [on(event, l)] called for each listener of the list. *)
Definition demo_listening (event : string) (ls : list Listener) : World :=
  (Connection.forEach ls (Connection.addEventListener event) initial_world).2.

(** A value of every lossless kind. *)
Definition demo_record : JsValue :=
  JObject [ ("name", JStr "a");
            ("created", JDate (Some 1704067200000));
            ("tags", JArray [JNum (NInt 1); JBool true; JNull; JStr "2024-13"]) ].

(** ** Further predicates and pages *)

(** Values on which the two copies of [jsonMakeObjectSafe] take the same
    branches: no Set, no object of a class of its own, no own
    [constructor] property. *)
Fixpoint plain_data (v : JsValue) : bool :=
  match v with
  | JSet _ | JInstance _ _ _ => false
  | JArray items => forallb plain_data items
  | JObject ps =>
      forallb (λ kv, plain_data kv.2) ps
      && match lookup_prop "constructor" ps with None => true | Some _ => false end
  | _ => true
  end.

(** A page whose template carries no address. *)
Definition demo_env_no_url : Env :=
  {| engine := demo_engine;
     template := {| tpl_url := None; tpl_protocols := None;
                    tpl_reconnect_interval := Some 500; tpl_auto_reconnect := Some false |};
     random_u32 := λ _, 0%N;
     listener_fn := λ _ _, script_ret () |}.

(** The open page after its socket has closed without [close()]: one
    reconnect timer is outstanding. *)
Definition demo_dropped : World := (Connection.socket_closes demo_env 0 JNull demo_open).2.

(** The variables of the first script, the sockets and their traffic,
    the timers and the state of the random source: everything but the
    console, the resolver registry, the promises and the pending
    continuations. *)
Definition connection_state (w : World) :=
  (ws w, sockets w, wire w, eventListeners w, reconnectTimer w, shouldReconnect w,
   timers w, next_timer w, draws w).

(** A page whose random source delivers 0 every time and whose
    [JSON.parse] also knows a frame answering the identifier 0. *)
Definition demo_env_zero_ids : Env :=
  {| engine :=
       {| Number_repr := Number_repr demo_engine;
          Date_toString := Date_toString demo_engine;
          ToPrimitive_own := ToPrimitive_own demo_engine;
          Date_parse_other := Date_parse_other demo_engine;
          JSON_parse := λ text,
            if String.eqb text "{result_id:0,result:42}" then
              Normal (JObject [("result_id", JNum (NInt 0)); ("result", JNum (NInt 42))])
            else JSON_parse demo_engine text |};
     template := template demo_env;
     random_u32 := λ _, 0%N;
     listener_fn := listener_fn demo_env |}.

(** A page on which listener 5 is the message listener of the second
    script. *)
Definition demo_env_broker : Env :=
  {| engine := demo_engine;
     template := template demo_env;
     random_u32 := random_u32 demo_env;
     listener_fn := λ l raw,
       match l with
       | 5%nat => Broker.on_message demo_env raw
       | _ => script_ret ()
       end |}.

(** The open page after [invoke("echo")] with the random source that
    delivers 0: the resolver [_0] is registered. *)
Definition demo_zero_invoked : World :=
  (Broker.invoke demo_env_zero_ids (JStr "echo") JUndefined demo_open).2.

(** An engine whose [JSON.parse] also knows a frame whose [result_id]
    prints to a name [window] inherits, and a frame that bears the
    identifier 0 as [error_id]. *)
Definition demo_engine_more : Engine :=
  {| Number_repr := Number_repr demo_engine;
     Date_toString := Date_toString demo_engine;
     ToPrimitive_own := ToPrimitive_own demo_engine;
     Date_parse_other := Date_parse_other demo_engine;
     JSON_parse := λ text,
       if String.eqb text "{result_id:_proto__,error_id:9}" then
         Normal (JObject [("result_id", JStr "_proto__"); ("error_id", JNum (NInt 9))])
       else if String.eqb text "{error_id:0,error:busy}" then
         Normal (JObject [("error_id", JNum (NInt 0)); ("error", JStr "busy")])
       else JSON_parse demo_engine text |}.

Definition proto_frame : JsValue := JStr "{result_id:_proto__,error_id:9}".

(** The page of [demo_env] with that engine. *)
Definition demo_env_more : Env :=
  {| engine := demo_engine_more;
     template := template demo_env;
     random_u32 := random_u32 demo_env;
     listener_fn := listener_fn demo_env |}.



(** * Properties *)

(** ** Induction on values *)

(** Induction principle that reaches the values nested in lists. *)
Lemma JsValue_nested_ind (P : JsValue → Prop) :
  P JUndefined → P JNull → (∀ b, P (JBool b)) → (∀ n, P (JNum n)) →
  (∀ s, P (JStr s)) → (∀ tv, P (JDate tv)) → (∀ bs, P (JArrayBuffer bs)) →
  (∀ es, P (JTypedArray es)) →
  (∀ items, Forall P items → P (JArray items)) →
  (∀ items, Forall P items → P (JSet items)) →
  (∀ props, Forall (λ kv, P kv.2) props → P (JObject props)) →
  (∀ c r props, Forall (λ kv, P kv.2) props → P (JInstance c r props)) →
  (∀ n r, P (JFunction n r)) →
  ∀ v, P v.
Proof.
  intros Hu Hn Hb Hnum Hs Hd Hab Hta Harr Hset Hobj Hinst Hf.
  fix IH 1. intros [ | | b | n | s | tv | bs | es | items | items | props | c r props | n r ].
  - exact Hu.
  - exact Hn.
  - apply Hb.
  - apply Hnum.
  - apply Hs.
  - apply Hd.
  - apply Hab.
  - apply Hta.
  - apply Harr. induction items as [ | x xs IHxs ]; constructor; [ apply IH | exact IHxs ].
  - apply Hset. induction items as [ | x xs IHxs ]; constructor; [ apply IH | exact IHxs ].
  - apply Hobj. induction props as [ | [k x] xs IHxs ]; constructor; [ apply IH | exact IHxs ].
  - apply Hinst. induction props as [ | [k x] xs IHxs ]; constructor; [ apply IH | exact IHxs ].
  - apply Hf.
Qed.

(** ** Decimal fields *)

Lemma digit_char_is_digit d : 0 ≤ d < 10 → is_digit (digit_char d) = true.
Proof.
  intros Hd. unfold is_digit, digit_char.
  rewrite N_ascii_embedding by lia.
  apply andb_true_intro; split; apply N.leb_le; lia.
Qed.

Lemma digit_val_char d : 0 ≤ d < 10 → digit_val (digit_char d) = d.
Proof.
  intros Hd. unfold digit_val, digit_char.
  rewrite N_ascii_embedding by lia. lia.
Qed.

Lemma read_digits_pad n v acc rest :
  read_digits n acc (pad n v +:+ rest) = Some (acc * 10 ^ Z.of_nat n + v mod 10 ^ Z.of_nat n, rest).
Proof.
  revert acc. induction n as [ | n IH ]; intros acc.
  - simpl. rewrite Z.mod_1_r. do 2 f_equal. lia.
  - cbn [pad].
    change (String ?c ?s +:+ ?r) with (String c (s +:+ r)). cbn [read_digits].
    assert (Hd : 0 ≤ (v / 10 ^ Z.of_nat n) mod 10 < 10) by (apply Z.mod_pos_bound; lia).
    rewrite digit_char_is_digit, digit_val_char by exact Hd.
    rewrite IH. do 2 f_equal.
    rewrite Nat2Z.inj_succ, Z.pow_succ_r by lia.
    rewrite (Z.mul_comm 10 (10 ^ Z.of_nat n)), Z.rem_mul_r by lia. ring.
Qed.

Lemma read_digits_pad_small n v rest :
  0 ≤ v < 10 ^ Z.of_nat n →
  read_digits n 0 (pad n v +:+ rest) = Some (v, rest).
Proof.
  intros Hv. rewrite read_digits_pad, Z.mod_small by lia. reflexivity.
Qed.

(** ** The calendar *)

Lemma all_from_spec fuel z f :
  all_from fuel z f = true → ∀ x, z ≤ x < z + Z.of_nat fuel → f x = true.
Proof.
  revert z. induction fuel as [ | fuel IH ]; intros z Hall x Hx; [ lia | ].
  cbn [all_from] in Hall. apply andb_prop in Hall as [Hz Hrest].
  destruct (decide (x = z)) as [-> | Hne]; [ exact Hz | ].
  apply (IH (z + 1)); [ exact Hrest | lia ].
Qed.

Lemma month_day_ok_all doy : 0 ≤ doy ≤ 365 → month_day_ok doy = true.
Proof.
  intros H. apply (all_from_spec 366 0 month_day_ok); [ vm_compute; reflexivity | lia ].
Qed.

Lemma year_of_era_spec doe :
  0 ≤ doe < 146097 →
  let yoe := (doe - doe / 1460 + doe / 36524 - doe / 146096) / 365 in
  let doy := doe - (365 * yoe + yoe / 4 - yoe / 100) in
  0 ≤ yoe ≤ 399 ∧ 0 ≤ doy ≤ 365
  ∧ (doy = 365 → (yoe + 1) mod 4 = 0 ∧ ((yoe + 1) mod 100 ≠ 0 ∨ (yoe + 1) mod 400 = 0))
  ∧ (doe ≤ 146036 → yoe ≤ 398 ∨ doy ≤ 305)
  ∧ (146036 < doe → yoe = 399 ∧ 306 ≤ doy).
Proof. intros H yoe doy. subst yoe doy. Z.div_mod_to_equations. lia. Qed.

Lemma civil_of_era_day_spec doe :
  0 ≤ doe < 146097 →
  let '(y, m, d) := DateTime.civil_of_era_day doe in
  let yoe := if m <=? 2 then y - 1 else y in
  0 ≤ yoe ≤ 399 ∧ 1 ≤ m ≤ 12 ∧ 1 ≤ d ≤ DateTime.days_in_month y m
  ∧ DateTime.era_day_of_civil yoe m d = doe
  ∧ (doe ≤ 146036 → y ≤ 399) ∧ (146036 < doe → y = 400).
Proof.
  intros Hdoe. unfold DateTime.civil_of_era_day.
  pose proof (year_of_era_spec doe Hdoe) as Hyear. cbv zeta in Hyear.
  set (yoe := (doe - doe / 1460 + doe / 36524 - doe / 146096) / 365) in *.
  set (doy := doe - (365 * yoe + yoe / 4 - yoe / 100)) in *.
  destruct Hyear as (Hy & Hdoy & Hleap & Hlow & Hhigh).
  pose proof (month_day_ok_all doy Hdoy) as Hmd. unfold month_day_ok in Hmd.
  set (mp := (5 * doy + 2) / 153) in *.
  set (d := doy - (153 * mp + 2) / 5 + 1) in *.
  set (m := if mp <? 10 then mp + 3 else mp - 9) in *.
  repeat (apply andb_prop in Hmd as [Hmd ?]).
  repeat match goal with
         | H : (_ <=? _) = true |- _ => apply Z.leb_le in H
         | H : (_ =? _) = true |- _ => apply Z.eqb_eq in H
         end.
  rename H into Hside, H0 into Hinv, H1 into Hd.
  assert (Hm2 : m ≤ 2 ↔ 306 ≤ doy).
  { apply Bool.eqb_prop in Hside.
    destruct (Z.leb_spec m 2), (Z.leb_spec 306 doy); (discriminate || lia). }
  assert (Hyoe : (if m <=? 2 then (if m <=? 2 then yoe + 1 else yoe) - 1
                  else (if m <=? 2 then yoe + 1 else yoe)) = yoe)
    by (destruct (m <=? 2); lia).
  rewrite Hyoe. clearbody m d. clear Hside.
  split; [ exact Hy | split; [ lia | split; [ | split; [ | split ] ] ] ].
  - split; [ lia | ]. etransitivity; [ exact Hd | ].
    unfold DateTime.days_in_month, DateTime.is_leap.
    destruct (Z.eqb_spec m 2) as [-> | _]; [ | lia ].
    replace (2 <=? 2) with true by reflexivity.
    destruct (Z.eqb_spec doy 365) as [H365 | _]; [ | repeat case_match; lia ].
    destruct (Hleap H365) as [H4 H100].
    rewrite H4. cbn [Z.eqb andb].
    destruct (Z.eqb_spec ((yoe + 1) mod 100) 0), (Z.eqb_spec ((yoe + 1) mod 400) 0);
      cbn; lia.
  - unfold DateTime.era_day_of_civil. subst doy. lia.
  - intros Hle. destruct (Z.leb_spec m 2); lia.
  - intros Hgt. destruct (Z.leb_spec m 2); lia.
Qed.

Lemma is_leap_era y era : DateTime.is_leap (y + 400 * era) = DateTime.is_leap y.
Proof.
  unfold DateTime.is_leap.
  replace (y + 400 * era) with (y + (100 * era) * 4) at 1 by ring.
  replace (y + 400 * era) with (y + (4 * era) * 100) at 1 by ring.
  replace (y + 400 * era) with (y + era * 400) by ring.
  rewrite !Z_mod_plus_full. reflexivity.
Qed.

Lemma civil_from_days_inverse z :
  let '(y, m, d) := DateTime.civil_from_days z in
  DateTime.days_from_civil y m d = z
  ∧ 1 ≤ m ≤ 12 ∧ 1 ≤ d ≤ DateTime.days_in_month y m
  ∧ (-719528 ≤ z ≤ 2932896 → 0 ≤ y ≤ 9999).
Proof.
  unfold DateTime.civil_from_days.
  pose proof (Z.mod_pos_bound (z + 719468) 146097 ltac:(lia)) as Hdoe.
  pose proof (Z.div_mod (z + 719468) 146097 ltac:(lia)) as Hsplit.
  set (doe := (z + 719468) mod 146097) in *.
  set (era := (z + 719468) / 146097) in *.
  pose proof (civil_of_era_day_spec doe Hdoe) as Hok.
  destruct (DateTime.civil_of_era_day doe) as [[y0 m] d].
  destruct Hok as (Hyoe & Hm & Hd & Hinv & Hlow & Hhigh).
  assert (Hy : (if m <=? 2 then y0 + 400 * era - 1 else y0 + 400 * era)
               = (if m <=? 2 then y0 - 1 else y0) + era * 400)
    by (destruct (m <=? 2); ring).
  split; [ | split; [ exact Hm | split ] ].
  - unfold DateTime.days_from_civil. rewrite Hy.
    set (yoe := if m <=? 2 then y0 - 1 else y0) in *.
    rewrite Z.div_add, Z.mod_add, Z.div_small, Z.mod_small by lia. lia.
  - unfold DateTime.days_in_month in *. rewrite is_leap_era. exact Hd.
  - intros Hz. destruct (m <=? 2); lia.
Qed.

Lemma four_digit_year_days t :
  DateTime.four_digit_year t = true →
  -719528 ≤ t / DateTime.msPerDay ≤ 2932896.
Proof.
  unfold DateTime.four_digit_year, DateTime.msPerDay. intros H.
  apply andb_prop in H as [H1 H2]. apply Z.leb_le in H1, H2.
  Z.div_mod_to_equations. lia.
Qed.

Lemma expect_head c rest : expect c (String c EmptyString +:+ rest) = Some rest.
Proof.
  change (String c EmptyString +:+ rest) with (String c rest).
  unfold expect. rewrite Ascii.eqb_refl. reflexivity.
Qed.

Lemma iso_parse_inverse t :
  DateTime.four_digit_year t = true →
  DateTime.parse_utc_iso (DateTime.iso_of_time t) = Some t
  ∧ DateTime.iso_prefix (DateTime.iso_of_time t) = true.
Proof.
  intros Ht. apply four_digit_year_days in Ht.
  pose proof (civil_from_days_inverse (t / DateTime.msPerDay)) as Hciv.
  unfold DateTime.iso_of_time, DateTime.parse_utc_iso, DateTime.iso_prefix.
  destruct (DateTime.civil_from_days (t / DateTime.msPerDay)) as [[y m] d].
  destruct Hciv as (Hday & Hm & Hd & Hy). specialize (Hy Ht).
  assert (Hdim : DateTime.days_in_month y m ≤ 31)
    by (unfold DateTime.days_in_month; repeat case_match; lia).
  pose proof (Z.mod_pos_bound t DateTime.msPerDay ltac:(unfold DateTime.msPerDay; lia)) as Hr.
  pose proof (Z.div_mod t DateTime.msPerDay ltac:(unfold DateTime.msPerDay; lia)) as Hsplit.
  set (r := t mod DateTime.msPerDay) in *.
  unfold DateTime.msPerDay in *.
  replace ((0 <=? y) && (y <=? 9999)) with true
    by (symmetry; apply andb_true_intro; split; apply Z.leb_le; lia).
  assert (Hh : 0 ≤ r / 3600000 ≤ 23)
    by (Z.div_mod_to_equations; lia).
  assert (Hmi : 0 ≤ (r / 60000) mod 60 < 60) by (apply Z.mod_pos_bound; lia).
  assert (Hs : 0 ≤ (r / 1000) mod 60 < 60) by (apply Z.mod_pos_bound; lia).
  assert (Hms : 0 ≤ r mod 1000 < 1000) by (apply Z.mod_pos_bound; lia).
  split.
  - repeat (first [ rewrite read_digits_pad_small by (cbn; lia) | rewrite expect_head ];
            cbn [mbind option_bind]).
    change (expect "Z" "Z") with (Some EmptyString). cbn [mbind option_bind andb].
    repeat match goal with
           | |- context [ ?a <=? ?b ] =>
               replace (a <=? b) with true by (symmetry; apply Z.leb_le; lia)
           end.
    cbn [andb]. f_equal. rewrite Hday. Z.div_mod_to_equations. lia.
  - repeat (first [ rewrite read_digits_pad_small by (cbn; lia) | rewrite expect_head ];
            cbn [mbind option_bind]).
    reflexivity.
Qed.

(** ** Lists in the completion monad *)

Lemma mapM_Normal_intro {A B} (f : A → Completion B) items out :
  Forall2 (λ x y, f x = Normal y) items out → mapM f items = Normal out.
Proof.
  induction 1 as [ | x y xs ys Hxy _ IH ]; [ reflexivity | ].
  cbn. rewrite Hxy. cbn. rewrite IH. reflexivity.
Qed.

Lemma mapM_Normal_inv {A B} (f : A → Completion B) items out :
  mapM f items = Normal out → Forall2 (λ x y, f x = Normal y) items out.
Proof.
  revert out. induction items as [ | x xs IH ]; intros out H; cbn in H.
  - injection H as <-. constructor.
  - destruct (f x) as [y | e] eqn:Hx; cbn in H; [ | discriminate ].
    destruct (mapM f xs) as [ys | e] eqn:Hxs; cbn in H; [ | discriminate ].
    injection H as <-. constructor; [ exact Hx | apply IH; reflexivity ].
Qed.

(** ** Own properties *)

Lemma lookup_prop_None k ps : k ∉ ps.*1 → lookup_prop k ps = None.
Proof.
  induction ps as [ | [k' v] ps IH ]; intros Hk; [ reflexivity | ].
  cbn in *. apply not_elem_of_cons in Hk as [Hne Hk].
  destruct (String.eqb_spec k k') as [-> | _]; [ done | auto ].
Qed.

Lemma lookup_prop_Some_elem k v ps : lookup_prop k ps = Some v → (k, v) ∈ ps.
Proof.
  induction ps as [ | [k' v'] ps IH ]; cbn; [ discriminate | ].
  destruct (String.eqb_spec k k') as [-> | _].
  - intros [= ->]. left.
  - intros H. right. auto.
Qed.

Lemma lookup_prop_None_inv k ps : lookup_prop k ps = None → k ∉ ps.*1.
Proof.
  induction ps as [ | [k' v] ps IH ]; cbn; intros H.
  - apply not_elem_of_nil.
  - destruct (String.eqb_spec k k') as [-> | Hne]; [ discriminate | ].
    apply not_elem_of_cons. auto.
Qed.

Lemma set_prop_fresh k v acc : k ∉ acc.*1 → set_prop k v acc = acc ++ [(k, v)].
Proof.
  induction acc as [ | [k' v'] acc IH ]; intros Hk; [ reflexivity | ].
  cbn in *. apply not_elem_of_cons in Hk as [Hne Hk].
  destruct (String.eqb_spec k k') as [-> | _]; [ done | ].
  rewrite IH by exact Hk. reflexivity.
Qed.

Lemma entries_map_keys f ps out : entries_map f ps out → out.*1 = ps.*1.
Proof.
  induction 1 as [ | [k v] [k' v'] ps out [Hk _] _ IH ]; [ reflexivity | ].
  cbn in *. congruence.
Qed.

Lemma entries_map_lookup f ps out k :
  entries_map f ps out →
  match lookup_prop k ps with
  | Some v => ∃ v', lookup_prop k out = Some v' ∧ f v = Normal v'
  | None => lookup_prop k out = None
  end.
Proof.
  induction 1 as [ | [k1 v] [k2 v'] ps out [Hk Hv] _ IH ]; [ reflexivity | ].
  cbn in *. subst k2. destruct (String.eqb k k1); [ eauto | exact IH ].
Qed.

Lemma assign_entries_fresh f ps out acc :
  entries_map f ps out →
  NoDup (acc.*1 ++ ps.*1) →
  assign_entries f ps acc = Normal (acc ++ out).
Proof.
  intros Hmap. revert acc.
  induction Hmap as [ | [k v] [k' v'] ps out [Hk Hv] _ IH ]; intros acc Hnd.
  - cbn. rewrite app_nil_r. reflexivity.
  - cbn in *. subst k'. rewrite Hv. cbn.
    apply NoDup_app in Hnd as (Hacc & Hdisj & Hps).
    apply NoDup_cons in Hps as [Hk Hps].
    rewrite set_prop_fresh by (intros Hin; apply (Hdisj _ Hin); left).
    rewrite IH.
    + rewrite <- app_assoc. reflexivity.
    + rewrite fmap_app. cbn. rewrite <- app_assoc. cbn.
      apply NoDup_app. split; [ exact Hacc | split ].
      * intros x Hx Hin. apply (Hdisj x Hx). exact Hin.
      * apply NoDup_cons. split; assumption.
Qed.

Lemma assign_entries_from_empty f ps out :
  entries_map f ps out → NoDup ps.*1 → assign_entries f ps [] = Normal out.
Proof. intros Hmap Hnd. apply (assign_entries_fresh f ps out []); assumption. Qed.

(** ** The codec on lossless values *)

Section Codec.
Context (env : Env).

Lemma iso_of_time_nonempty t : DateTime.iso_of_time t ≠ "".
Proof.
  unfold DateTime.iso_of_time.
  destruct (DateTime.civil_from_days _) as [[y m] d].
  destruct ((0 <=? y) && (y <=? 9999)); discriminate.
Qed.

#[local] Ltac codec_step :=
  cbn [Broker.jsonMakeObjectSafe Broker.jsonRestoreObjectSync toISOString
       constructor_named_Path constructor_is_Object
       fmap Completion_fmap mbind Completion_bind].

Lemma lossless_encode_decode v :
  lossless env v = true →
  ∃ v', Broker.jsonMakeObjectSafe env v = Normal v'
        ∧ Broker.jsonRestoreObjectSync env v' = Normal v
        ∧ truthy v' = truthy v.
Proof.
  induction v as
    [ | | b | n | s | tv | bs | es | items IH | items IH | ps IH | c r ps IH | n r ]
    using JsValue_nested_ind; cbn [lossless]; intros Hl; try discriminate.
  - exists JNull. done.
  - exists (JBool b). done.
  - exists (JNum n). done.
  - exists (JStr s). split; [ done | split; [ | done ] ].
    cbn. destruct (DateTime.iso_prefix s); [ | done ].
    cbn in Hl. destruct (Date_parse env s); [ discriminate | done ].
  - destruct tv as [t | ]; [ | discriminate ].
    destruct (iso_parse_inverse t Hl) as [Hparse Hprefix].
    exists (JStr (DateTime.iso_of_time t)). split; [ done | split ].
    + codec_step. rewrite Hprefix. unfold Date_parse. rewrite Hparse. done.
    + cbn [truthy]. destruct (String.eqb_spec (DateTime.iso_of_time t) "") as [H | _]; [ | done ].
      destruct (iso_of_time_nonempty t H).
  - assert (Hall : ∃ out, Forall2 (λ x y, Broker.jsonMakeObjectSafe env x = Normal y) items out
                          ∧ Forall2 (λ y x, Broker.jsonRestoreObjectSync env y = Normal x) out items).
    { induction IH as [ | x xs Hx _ IHxs ]; [ exists []; split; constructor | ].
      cbn in Hl. apply andb_prop in Hl as [Hlx Hlxs].
      destruct (Hx Hlx) as (x' & Hex & Hdx & _).
      destruct (IHxs Hlxs) as (out & He & Hd).
      exists (x' :: out). split; constructor; assumption. }
    destruct Hall as (out & He & Hd).
    exists (JArray out). codec_step.
    rewrite (mapM_Normal_intro _ _ _ He), (mapM_Normal_intro _ _ _ Hd). done.
  - repeat (apply andb_prop in Hl as [Hl ?]).
    repeat match goal with
           | H : bool_decide _ = true |- _ => apply bool_decide_eq_true in H
           | H : negb _ = true |- _ => apply negb_true_iff in H
           end.
    rename H into Hmedia, H0 into Hproto, H1 into Hctor, H2 into Hnd.
    assert (Hall : ∃ out, entries_map (Broker.jsonMakeObjectSafe env) ps out
                          ∧ entries_map (Broker.jsonRestoreObjectSync env) out ps
                          ∧ Forall2 (λ kv kv', kv'.1 = kv.1 ∧ truthy kv'.2 = truthy kv.2) ps out).
    { clear Hmedia Hproto Hctor Hnd.
      induction IH as [ | [k x] xs Hx _ IHxs ]; [ exists []; repeat split; constructor | ].
      cbn in Hl. apply andb_prop in Hl as [Hlx Hlxs].
      destruct (Hx Hlx) as (x' & Hex & Hdx & Htx).
      destruct (IHxs Hlxs) as (out & He & Hd & Ht).
      exists ((k, x') :: out). repeat split; constructor; cbn; auto. }
    destruct Hall as (out & He & Hd & Ht).
    pose proof (entries_map_keys _ _ _ He) as Hkeys.
    exists (JObject out). split; [ | split; [ | done ] ].
    + codec_step. rewrite (lookup_prop_None _ _ Hctor).
      rewrite (assign_entries_from_empty _ _ _ He Hnd). done.
    + codec_step. rewrite (lookup_prop_None "constructor" out) by (rewrite Hkeys; exact Hctor).
      assert (Hsame : Broker.is_media_object (JObject out) = Broker.is_media_object (JObject ps)).
      { unfold Broker.is_media_object. cbn [Get].
        assert (Hget : ∀ k, truthy (default JUndefined (lookup_prop k out))
                            = truthy (default JUndefined (lookup_prop k ps))).
        { intros k. clear -Ht.
          induction Ht as [ | [k1 v1] [k2 v2] ? ? [Hk Hv] _ IHt ]; [ done | ].
          cbn in *. subst k2. destruct (String.eqb k k1); [ exact Hv | exact IHt ]. }
        rewrite !Hget. done. }
      rewrite Hsame, Hmedia.
      rewrite (assign_entries_from_empty _ _ _ Hd) by (rewrite Hkeys; exact Hnd). done.
Qed.
End Codec.

(** ** Binary payloads *)

Lemma sextet_not_dash n : Base64.sextet n ≠ "-"%char.
Proof.
  assert (Hall : forallb (λ k, negb (Ascii.eqb (Base64.sextet (N.of_nat k)) "-"))
                   (seq 0 64) = true) by (vm_compute; reflexivity).
  rewrite forallb_forall in Hall.
  assert (Hmod : Base64.sextet n = Base64.sextet (N.of_nat (N.to_nat (n mod 64)))).
  { unfold Base64.sextet. rewrite N2Nat.id, N.Div0.mod_mod. reflexivity. }
  rewrite Hmod. intros Heq.
  assert (Hlt : (n mod 64 < 64)%N) by (apply N.mod_upper_bound; discriminate).
  assert (Hin : In (N.to_nat (n mod 64)) (seq 0 64)).
  { apply in_seq. revert Hlt. generalize (n mod 64)%N. intros m Hm. lia. }
  specialize (Hall _ Hin). rewrite Heq in Hall. discriminate Hall.
Qed.

Lemma expect_dash_base64 octets : expect "-" (Base64.encode octets) = None.
Proof.
  assert (Hhead : ∀ n rest, expect "-" (String (Base64.sextet n) rest) = None).
  { intros n rest. unfold expect.
    destruct (Ascii.eqb_spec "-" (Base64.sextet n)) as [Heq | _]; [ | reflexivity ].
    destruct (sextet_not_dash n (eq_sym Heq)). }
  destruct octets as [ | a [ | b [ | c rest ] ] ]; [ reflexivity | apply Hhead .. ].
Qed.

Lemma iso_prefix_base64 octets : DateTime.iso_prefix (Base64.encode octets) = false.
Proof.
  unfold DateTime.iso_prefix.
  destruct octets as [ | a [ | b [ | c rest ] ] ]; [ reflexivity | | | ];
    cbn [Base64.encode read_digits mbind option_bind];
    repeat match goal with
           | |- context [ is_digit ?c ] => destruct (is_digit c)
           end; cbn [mbind option_bind]; try reflexivity.
  rewrite expect_dash_base64. reflexivity.
Qed.

(** An [ArrayBuffer] comes back from the round trip as its base64 text. *)
Lemma buffer_round_trip env bytes :
  round_trip env (JArrayBuffer bytes)
  = Normal (JStr (Base64.encode (Byte.to_N <$> bytes))).
Proof.
  unfold round_trip, btoa. cbn [Broker.jsonMakeObjectSafe].
  assert (Hlatin : forallb (λ c, c <=? 255)%N (Byte.to_N <$> bytes) = true).
  { induction bytes as [ | b bs IH ]; [ reflexivity | ].
    cbn. rewrite IH, andb_true_r. apply N.leb_le.
    pose proof (Byte.to_N_bounded b). lia. }
  unfold btoa. rewrite Hlatin.
  cbn [fmap Completion_fmap mbind Completion_bind Broker.jsonRestoreObjectSync].
  rewrite iso_prefix_base64. reflexivity.
Qed.

(** ** What the broker's encoder returns, and the send codec on it *)

Lemma assign_entries_inv f ps acc res :
  NoDup (acc.*1 ++ ps.*1) →
  assign_entries f ps acc = Normal res →
  ∃ out, entries_map f ps out ∧ res = acc ++ out.
Proof.
  revert acc. induction ps as [ | [k v] ps IH ]; intros acc Hnd H; cbn in H.
  - injection H as <-. exists []. split; [ constructor | by rewrite app_nil_r ].
  - destruct (f v) as [v' | e] eqn:Hv; cbn in H; [ | discriminate ].
    cbn in Hnd. apply NoDup_app in Hnd as (Hacc & Hdisj & Hps).
    apply NoDup_cons in Hps as [Hk Hps].
    rewrite set_prop_fresh in H by (intros Hin; apply (Hdisj _ Hin); left).
    apply IH in H as (out & Hmap & ->).
    + exists ((k, v') :: out). split; [ constructor; [ done | exact Hmap ] | ].
      rewrite <- app_assoc. reflexivity.
    + rewrite fmap_app. cbn. rewrite <- app_assoc. cbn.
      apply NoDup_app. split; [ exact Hacc | split ].
      * intros x Hx Hin. apply (Hdisj x Hx). exact Hin.
      * apply NoDup_cons. split; assumption.
Qed.

Section SendCodec.
Context (env : Env).

Lemma fmap_Normal_inv {A B} (f : A → B) (c : Completion A) b :
  f <$> c = Normal b → ∃ a, c = Normal a ∧ b = f a.
Proof. destruct c as [a | e]; cbn; [ intros [= <-]; eauto | discriminate ]. Qed.

Lemma encoder_output_wire_safe v v' :
  wf_value v = true →
  Broker.jsonMakeObjectSafe env v = Normal v' →
  wire_safe v' = true.
Proof.
  revert v'.
  assert (Harr : ∀ items, Forall (λ v, ∀ v', wf_value v = true →
                    Broker.jsonMakeObjectSafe env v = Normal v' → wire_safe v' = true) items →
                  forallb wf_value items = true → ∀ v',
                  JArray <$> mapM (Broker.jsonMakeObjectSafe env) items = Normal v' →
                  wire_safe v' = true).
  { intros items IH Hwf v' H.
    apply fmap_Normal_inv in H as (out & Hout & ->).
    apply mapM_Normal_inv in Hout. cbn [wire_safe].
    induction Hout as [ | x y xs ys Hxy _ IHxs ]; [ done | ].
    cbn in Hwf |- *. apply andb_prop in Hwf as [Hx Hxs].
    apply Forall_cons in IH as [IHx IH].
    rewrite (IHx y Hx Hxy). cbn. auto. }
  assert (Hobj : ∀ ps, Forall (λ kv, ∀ v', wf_value kv.2 = true →
                    Broker.jsonMakeObjectSafe env kv.2 = Normal v' → wire_safe v' = true) ps →
                  forallb (λ kv, wf_value kv.2) ps && bool_decide (NoDup ps.*1) = true →
                  match lookup_prop "constructor" ps with
                  | Some c => is_Object_builtin c = true
                  | None => True
                  end → ∀ v',
                  JObject <$> assign_entries (Broker.jsonMakeObjectSafe env) ps [] = Normal v' →
                  wire_safe v' = true).
  { intros ps IH Hwf Hctor v' H.
    apply andb_prop in Hwf as [Hwf Hnd]. apply bool_decide_eq_true in Hnd.
    apply fmap_Normal_inv in H as (res & Hres & ->).
    apply assign_entries_inv in Hres as (out & Hmap & ->); [ | exact Hnd ].
    cbn [app wire_safe].
    pose proof (entries_map_keys _ _ _ Hmap) as Hkeys.
    pose proof (entries_map_lookup _ _ _ "constructor" Hmap) as Hlk.
    apply andb_true_intro; split; [ apply andb_true_intro; split | ].
    - clear Hkeys Hlk Hctor Hnd.
      induction Hmap as [ | [k x] [k' y] xs ys [_ Hv] _ IHxs ]; [ done | ].
      cbn in Hwf, Hv |- *. apply andb_prop in Hwf as [Hx Hxs].
      apply Forall_cons in IH as [IHx IH].
      rewrite (IHx y Hx Hv). cbn. auto.
    - apply bool_decide_eq_true. rewrite Hkeys. exact Hnd.
    - destruct (lookup_prop "constructor" ps) as [c | ].
      + destruct Hlk as (c' & -> & Hc).
        destruct c; try discriminate. cbn in Hc. injection Hc as <-. done.
      + rewrite Hlk. done. }
  induction v as
    [ | | b | n | s | tv | bs | es | items IH | items IH | ps IH | c r ps IH | n r ]
    using JsValue_nested_ind; intros v' Hwf H; cbn [Broker.jsonMakeObjectSafe] in H;
    try (injection H as <-; reflexivity);
    try (apply fmap_Normal_inv in H as (? & _ & ->); reflexivity).
  - exact (Harr items IH Hwf v' H).
  - exact (Harr items IH Hwf v' H).
  - destruct (constructor_named_Path (JObject ps));
      [ apply fmap_Normal_inv in H as (? & _ & ->); reflexivity | ].
    destruct (constructor_is_Object (JObject ps)) eqn:Hc;
      [ | apply fmap_Normal_inv in H as (? & _ & ->); reflexivity ].
    apply (Hobj ps IH Hwf); [ | exact H ].
    cbn in Hc. destruct (lookup_prop "constructor" ps); done.
  - destruct (constructor_named_Path (JInstance c r ps));
      [ apply fmap_Normal_inv in H as (? & _ & ->); reflexivity | ].
    destruct (constructor_is_Object (JInstance c r ps)) eqn:Hc;
      [ | apply fmap_Normal_inv in H as (? & _ & ->); reflexivity ].
    apply (Hobj ps IH Hwf); [ | exact H ].
    cbn in Hc. destruct (lookup_prop "constructor" ps); done.
Qed.

Lemma send_codec_fixes_wire_safe v :
  wire_safe v = true → Connection.jsonMakeObjectSafe env v = Normal v.
Proof.
  induction v as
    [ | | b | n | s | tv | bs | es | items IH | items IH | ps IH | c r ps IH | n r ]
    using JsValue_nested_ind; cbn [wire_safe]; intros Hs; try discriminate;
    try reflexivity.
  - cbn [Connection.jsonMakeObjectSafe].
    rewrite (mapM_Normal_intro _ items items); [ done | ].
    induction IH as [ | x xs Hx _ IHxs ]; [ constructor | ].
    cbn in Hs. apply andb_prop in Hs as [Hsx Hsxs]. constructor; auto.
  - apply andb_prop in Hs as [Hs Hctor]. apply andb_prop in Hs as [Hs Hnd].
    apply bool_decide_eq_true in Hnd.
    cbn [Connection.jsonMakeObjectSafe constructor_named_Path].
    assert (Hpath : match lookup_prop "constructor" ps with
                    | Some c => truthy c && match Get c "name" with
                                            | JStr n => String.eqb n "Path"
                                            | _ => false
                                            end
                    | None => false
                    end = false).
    { destruct (lookup_prop "constructor" ps) as [ [] | ]; try discriminate; try done.
      cbn. apply andb_false_r. }
    rewrite Hpath.
    rewrite (assign_entries_from_empty _ ps ps); [ done | | exact Hnd ].
    clear Hctor Hnd Hpath.
    induction IH as [ | [k x] xs Hx _ IHxs ]; [ constructor | ].
    cbn in Hs. apply andb_prop in Hs as [Hsx Hsxs].
    constructor; [ split; [ reflexivity | exact (Hx Hsx) ] | exact (IHxs Hsxs) ].
Qed.

End SendCodec.

(** ** The invocation broker *)

Section BrokerFacts.
Context (env : Env).

Lemma settle_new_promise st w :
  Broker.settle (List.length (promises w)) st (with_promises (promises w ++ [Pending]) w)
  = with_promises (promises w ++ [st]) w.
Proof.
  unfold Broker.settle. cbn [promises with_promises].
  rewrite list_lookup_middle by reflexivity.
  unfold with_promises. cbn. f_equal.
  rewrite insert_app_r_alt by lia. rewrite Nat.sub_diag. reflexivity.
Qed.

Lemma nullish_or_wf args : wf_value args = true → wf_value (nullish_or args (JObject [])) = true.
Proof. destruct args; done. Qed.

(** [invoke] on an open connection, field by field. *)
Lemma invoke_connected (cmd : string) args w sock py_args :
  ws w = Some sock →
  Connection.is_connected w = true →
  wf_value args = true →
  Broker.jsonMakeObjectSafe env (nullish_or args (JObject [])) = Normal py_args →
  let rid := (random_u32 env (draws w) mod 2 ^ 32)%N in
  let eid := (random_u32 env (S (draws w)) mod 2 ^ 32)%N in
  let p := List.length (promises w) in
  let '(r, w') := Broker.invoke env (JStr cmd) args w in
  r = Normal p
  ∧ promises w' = promises w ++ [Pending]
  ∧ window w'
    = <[Broker.prop_of env eid :=
          {| once := true; callback := Some (CbReject p); isAsync := false |}]>
        (<[Broker.prop_of env rid :=
             {| once := true; callback := Some (CbResolve p); isAsync := false |}]>
           (window w))
  ∧ wire w' = wire w ++
       [(sock, JObject [ ("cmd", JStr cmd); ("result_id", JNum (NInt (Z.of_N rid)));
                         ("error_id", JNum (NInt (Z.of_N eid))); ("payload", py_args) ])].
Proof.
  intros Hws Hopen Hwf Henc rid eid p.
  pose proof (send_codec_fixes_wire_safe env py_args
                (encoder_output_wire_safe env _ _ (nullish_or_wf _ Hwf) Henc)) as Hfix.
  unfold Broker.invoke, Broker.transformCallback, Broker.uid, Broker.new_Promise,
    Connection.send, try_catch, script_bind, script_do, script_ret, script_lift.
  change (Connection.is_connected (with_promises (promises w ++ [Pending]) w))
    with (Connection.is_connected w).
  rewrite Hopen, Henc. cbn [negb].
  unfold Connection.is_connected in Hopen.
  unfold Connection.current_readyState in *.
  cbn [ws with_window with_draws with_promises draws window promises sockets
       Broker.is_AsyncFunction].
  rewrite Hws in *. cbn [mbind option_bind] in *.
  destruct (readyState <$> sockets w !! sock) as [ [] | ]; try discriminate.
  cbn [Connection.jsonMakeObjectSafe constructor_named_Path lookup_prop String.eqb Ascii.eqb
       Bool.eqb assign_entries set_prop fmap Completion_fmap mbind Completion_bind].
  rewrite Hfix.
  cbn [Connection.jsonMakeObjectSafe constructor_named_Path lookup_prop String.eqb Ascii.eqb
       Bool.eqb assign_entries set_prop fmap Completion_fmap mbind Completion_bind
       wire window promises with_wire].
  done.
Qed.

(** The names of two distinct 32-bit identifiers differ. *)
Lemma prop_of_inj a b :
  (a < 2 ^ 32)%N → (b < 2 ^ 32)%N → Broker.prop_of env a = Broker.prop_of env b → a = b.
Proof.
  intros Ha Hb. unfold Broker.prop_of, Number_toString.
  assert (Hsmall : ∀ n, (n < 2 ^ 32)%N → (Z.abs (Z.of_N n) <? 10 ^ 21) = true).
  { intros n Hn. apply Z.ltb_lt.
    assert (H32 : (2 ^ 32)%N = 4294967296%N) by reflexivity.
    assert (H21 : 10 ^ 21 = 1000000000000000000000) by reflexivity.
    rewrite H32 in Hn. rewrite H21. lia. }
  rewrite (Hsmall a Ha), (Hsmall b Hb).
  intros [= H]. apply pretty_Z_inj in H. lia.
Qed.

(** C2. Called while the connection manager does not report the open
    state, [invoke] returns a promise that is already rejected with the
    connection-unavailable error; nothing is sent and no correlation id is
    drawn or registered. *)
Theorem invoke_while_not_open cmd args w :
  Connection.is_connected w = false →
  let '(r, w') := Broker.invoke env cmd args w in
  r = Normal (List.length (promises w))
  ∧ promises w'
    = promises w ++ [Rejected (error_object "Error" "Socket is not connected or unavailable!")]
  ∧ wire w' = wire w ∧ window w' = window w ∧ draws w' = draws w.
Proof.
  intros Hclosed.
  unfold Broker.invoke, script_bind, try_catch, Broker.new_Promise, script_do, script_ret.
  change (Connection.is_connected (with_promises (promises w ++ [Pending]) w))
    with (Connection.is_connected w).
  rewrite Hclosed. cbn [negb Broker.run_callback].
  rewrite settle_new_promise. cbn. done.
Qed.

End BrokerFacts.

(** ** Correlation of inbound messages *)

Section Correlation.
Context (env : Env).

Lemma window_settle p st w : window (Broker.settle p st w) = window w.
Proof. unfold Broker.settle. by repeat case_match. Qed.

Lemma window_run_callback cb v w : window (Broker.run_callback cb v w) = window w.
Proof. destruct cb; apply window_settle. Qed.

Lemma window_call_resolver prop r payload w :
  window (Broker.call_resolver env prop r payload w)
  = if once r then delete prop (window w) else window w.
Proof.
  unfold Broker.call_resolver.
  destruct (once r), (callback r), (isAsync r);
    repeat case_match; rewrite ?window_run_callback; reflexivity.
Qed.

Lemma deliver_falsy id payload w :
  truthy id = false → Broker.deliver env id payload w = (Normal (), w).
Proof. intros H. unfold Broker.deliver. rewrite H. reflexivity. Qed.

(** Whatever [window] inherits under the name, looking it up and
    calling it leaves the page as it is. *)
Lemma call_inherited_world prop payload w c w' :
  Broker.call_inherited env prop payload w = (c, w') → w' = w.
Proof.
  unfold Broker.call_inherited, script_throw, script_bind, script_lift, script_ret.
  repeat case_match; by intros [= _ <-].
Qed.

(** A name [window] does not inherit gives [undefined]. *)
Lemma call_inherited_other prop payload w :
  Broker.window_inherited prop = false →
  Broker.call_inherited env prop payload w = (Normal (), w).
Proof.
  intros Hno. apply bool_decide_eq_false in Hno.
  unfold Broker.call_inherited.
  assert (Hne : ∀ name, name ∈ Broker.Window_inherited_names → String.eqb prop name = false).
  { intros name Hin. apply String.eqb_neq. intros ->. exact (Hno Hin). }
  rewrite !Hne by (unfold Broker.Window_inherited_names; set_solver).
  reflexivity.
Qed.

Lemma deliver_truthy id payload w s :
  truthy id = true → ToString env id = Normal s →
  Broker.deliver env id payload w
  = match window w !! ("_" +:+ s) with
    | Some r => (Normal (), Broker.call_resolver env ("_" +:+ s) r payload w)
    | None => Broker.call_inherited env ("_" +:+ s) payload w
    end.
Proof.
  intros Ht Hs. unfold Broker.deliver, script_bind, script_lift.
  rewrite Ht, Hs. reflexivity.
Qed.

(** The block of an identifier under whose name a resolver is
    registered calls that resolver. *)
Lemma deliver_registered id payload w s r :
  truthy id = true → ToString env id = Normal s →
  window w !! ("_" +:+ s) = Some r →
  Broker.deliver env id payload w
  = (Normal (), Broker.call_resolver env ("_" +:+ s) r payload w).
Proof. intros Ht Hs Hr. rewrite (deliver_truthy _ _ _ _ Ht Hs), Hr. reflexivity. Qed.

(** The block of an identifier whose name is neither registered nor
    inherited does nothing. *)
Lemma deliver_unknown id payload w s :
  truthy id = true → ToString env id = Normal s →
  window w !! ("_" +:+ s) = None →
  Broker.window_inherited ("_" +:+ s) = false →
  Broker.deliver env id payload w = (Normal (), w).
Proof.
  intros Ht Hs Hr Hno. rewrite (deliver_truthy _ _ _ _ Ht Hs), Hr.
  apply call_inherited_other. exact Hno.
Qed.

(** Delivering never registers anything. *)
Lemma deliver_shrinks id payload w c w' k r :
  Broker.deliver env id payload w = (c, w') →
  window w' !! k = Some r → window w !! k = Some r.
Proof.
  unfold Broker.deliver, script_bind, script_lift, script_ret.
  destruct (truthy id); [ | by intros [= _ <-] ].
  destruct (ToString env id) as [s | e]; [ | by intros [= _ <-] ].
  destruct (window w !! ("_" +:+ s)) as [r0 | ].
  - intros [= _ <-]. rewrite window_call_resolver. destruct (once r0); [ | done ].
    intros H. apply lookup_delete_Some in H as [_ H]. exact H.
  - intros Hc. apply call_inherited_world in Hc as ->. done.
Qed.

(** Delivering to a one-shot resolver removes it. *)
Lemma deliver_consumes id payload w s :
  truthy id = true → ToString env id = Normal s →
  Broker.window_inherited ("_" +:+ s) = false →
  (∀ r, window w !! ("_" +:+ s) = Some r → once r = true) →
  ∃ w', Broker.deliver env id payload w = (Normal (), w')
        ∧ window w' !! ("_" +:+ s) = None.
Proof.
  intros Ht Hs Hno Hone.
  destruct (window w !! ("_" +:+ s)) as [r | ] eqn:Hr.
  - rewrite (deliver_registered _ _ _ _ _ Ht Hs Hr).
    eexists; split; [ reflexivity | ].
    rewrite window_call_resolver, (Hone r eq_refl). apply lookup_delete_eq.
  - rewrite (deliver_unknown _ _ _ _ Ht Hs Hr Hno). eauto.
Qed.

Lemma handle_message_deliveries raw data w :
  Broker.parse_frame env raw = Normal data → data ≠ JNull →
  Broker.handle_message env raw w
  = script_bind (Broker.deliver env (Get data "result_id") (Get data "result"))
      (λ _, Broker.deliver env (Get data "error_id") (Get data "error")) w.
Proof.
  intros Hp Hnn. unfold Broker.handle_message, script_bind at 1, script_lift.
  rewrite Hp. destruct data; done.
Qed.

Lemma deliveries_not_null data : deliveries data ≠ [] → data ≠ JNull.
Proof. intros H ->. apply H. reflexivity. Qed.

Lemma console_settle p st w : console (Broker.settle p st w) = console w.
Proof. unfold Broker.settle. by repeat case_match. Qed.

Lemma console_call_resolver prop r payload w :
  console (Broker.call_resolver env prop r payload w) = console w.
Proof.
  unfold Broker.call_resolver.
  destruct (once r), (callback r) as [ [] | ], (isAsync r);
    repeat case_match; cbn [Broker.run_callback]; rewrite ?console_settle; reflexivity.
Qed.

Lemma console_deliver id payload w c w' :
  Broker.deliver env id payload w = (c, w') → console w' = console w.
Proof.
  unfold Broker.deliver, script_bind, script_lift, script_ret.
  destruct (truthy id); [ | by intros [= _ <-] ].
  destruct (ToString env id) as [s | e]; [ | by intros [= _ <-] ].
  destruct (window w !! ("_" +:+ s)).
  - intros [= _ <-]. apply console_call_resolver.
  - intros Hc. apply call_inherited_world in Hc as ->. reflexivity.
Qed.

Lemma deliveries_ids data x :
  x ∈ (deliveries data).*1 ↔
  (x = Get data "result_id" ∨ x = Get data "error_id") ∧ truthy x = true.
Proof.
  unfold deliveries. cbn [List.filter fst].
  destruct (truthy (Get data "result_id")) eqn:Ha, (truthy (Get data "error_id")) eqn:Hb;
    cbn; rewrite ?elem_of_cons, ?elem_of_nil; split; intros H;
    repeat match goal with
           | H : _ ∨ _ |- _ => destruct H
           | H : _ ∧ _ |- _ => destruct H
           | H : False |- _ => destruct H
           end; subst; try congruence; auto.
Qed.

Lemma deliveries_Forall data (P : JsValue → Prop) :
  Forall P (deliveries data).*1 →
  (truthy (Get data "result_id") = true → P (Get data "result_id"))
  ∧ (truthy (Get data "error_id") = true → P (Get data "error_id")).
Proof.
  rewrite Forall_forall. intros H. split; intros Ht; apply H, deliveries_ids; auto.
Qed.

(** A block completes when its identifier, if it passes the [if], can
    be printed and prints to a name [window] does not inherit. *)
Lemma deliver_completes x px w :
  (truthy x = true →
   ∃ s', ToString env x = Normal s' ∧ Broker.window_inherited ("_" +:+ s') = false) →
  ∃ w', Broker.deliver env x px w = (Normal (), w').
Proof.
  intros Hx. destruct (truthy x) eqn:Htx.
  - destruct (Hx eq_refl) as (s' & Hs' & Hno).
    destruct (window w !! ("_" +:+ s')) as [r | ] eqn:Hr.
    + rewrite (deliver_registered _ _ _ _ _ Htx Hs' Hr). eauto.
    + rewrite (deliver_unknown _ _ _ _ Htx Hs' Hr Hno). eauto.
  - rewrite (deliver_falsy _ _ _ Htx). eauto.
Qed.

(** The two blocks of the listener, when every identifier they act on
    can be printed and names nothing [window] inherits: the listener
    completes, and a one-shot resolver under the printed name [s] of one
    of them is gone afterwards. *)
Lemma two_blocks_consume a pa b pb s w :
  (truthy a = true →
   ∃ s', ToString env a = Normal s' ∧ Broker.window_inherited ("_" +:+ s') = false) →
  (truthy b = true →
   ∃ s', ToString env b = Normal s' ∧ Broker.window_inherited ("_" +:+ s') = false) →
  (truthy a = true ∧ ToString env a = Normal s) ∨ (truthy b = true ∧ ToString env b = Normal s) →
  (∀ r, window w !! ("_" +:+ s) = Some r → once r = true) →
  ∃ w1, script_bind (Broker.deliver env a pa) (λ _, Broker.deliver env b pb) w = (Normal (), w1)
        ∧ console w1 = console w
        ∧ window w1 !! ("_" +:+ s) = None.
Proof.
  intros Ha Hb Hid Hone. unfold script_bind.
  assert (Hno : Broker.window_inherited ("_" +:+ s) = false).
  { destruct Hid as [[Ht Hs] | [Ht Hs]];
      [ destruct (Ha Ht) as (s' & Hs' & Hno) | destruct (Hb Ht) as (s' & Hs' & Hno) ];
      rewrite Hs in Hs'; injection Hs' as <-; exact Hno. }
  destruct (deliver_completes a pa w Ha) as [wa Hwa]. rewrite Hwa.
  destruct (deliver_completes b pb wa Hb) as [wb Hwb]. rewrite Hwb.
  exists wb. split; [ reflexivity | split ].
  - rewrite (console_deliver _ _ _ _ _ Hwb). apply (console_deliver _ _ _ _ _ Hwa).
  - destruct Hid as [[Hta Hsa] | [Htb Hsb]].
    + destruct (deliver_consumes a pa w s Hta Hsa Hno Hone) as (wa' & Heq & Hgone).
      rewrite Hwa in Heq. injection Heq as <-.
      destruct (window wb !! ("_" +:+ s)) as [r | ] eqn:Hr; [ | reflexivity ].
      apply (deliver_shrinks _ _ _ _ _ _ _ Hwb) in Hr. congruence.
    + assert (Hone' : ∀ r, window wa !! ("_" +:+ s) = Some r → once r = true).
      { intros r Hr. apply Hone. exact (deliver_shrinks _ _ _ _ _ _ _ Hwa Hr). }
      destruct (deliver_consumes b pb wa s Htb Hsb Hno Hone') as (wb' & Heq & Hgone).
      rewrite Hwb in Heq. injection Heq as <-. exact Hgone.
Qed.

(** ... and when every identifier they act on prints to a name under
    which nothing is registered and which [window] does not inherit,
    they change nothing. *)
Lemma two_blocks_inert a pa b pb s w :
  (truthy a = true → ToString env a = Normal s) →
  (truthy b = true → ToString env b = Normal s) →
  window w !! ("_" +:+ s) = None →
  Broker.window_inherited ("_" +:+ s) = false →
  script_bind (Broker.deliver env a pa) (λ _, Broker.deliver env b pb) w = (Normal (), w).
Proof.
  intros Ha Hb Hgone Hno. unfold script_bind.
  assert (Hd : ∀ x px, (truthy x = true → ToString env x = Normal s) →
               Broker.deliver env x px w = (Normal (), w)).
  { intros x px Hx. destruct (truthy x) eqn:Htx.
    - apply (deliver_unknown _ _ _ s Htx (Hx eq_refl) Hgone Hno).
    - apply deliver_falsy. exact Htx. }
  rewrite (Hd a pa Ha). apply (Hd b pb Hb).
Qed.

(** C3, as the code has it. Every one-shot resolver is removed from the
    registry when it is first invoked. Once the listener has processed a
    message that bears a correlation id, holds no [__proto__] key and
    all of whose identifiers can be printed and name no property
    [window] inherits, nothing is registered under that id, and a later
    message that holds no [__proto__] key and bears only that id changes
    nothing and raises no error. *)
Theorem consumed_id_is_inert raw1 raw2 d1 d2 id s w :
  Broker.parse_frame env raw1 = Normal d1 → no_proto_key d1 = true →
  id ∈ (deliveries d1).*1 →
  Forall (λ x, ∃ s', ToString env x = Normal s'
                     ∧ Broker.window_inherited ("_" +:+ s') = false)
    (deliveries d1).*1 →
  ToString env id = Normal s →
  (∀ r, window w !! ("_" +:+ s) = Some r → once r = true) →
  Broker.parse_frame env raw2 = Normal d2 → no_proto_key d2 = true →
  id ∈ (deliveries d2).*1 →
  Forall (λ x, ToString env x = Normal s) (deliveries d2).*1 →
  ∃ w1, Broker.on_message env raw1 w = (Normal (), w1)
        ∧ console w1 = console w
        ∧ window w1 !! ("_" +:+ s) = None
        ∧ Broker.on_message env raw2 w1 = (Normal (), w1).
Proof.
  intros Hp1 _ Hid1 Hall1 Hs Hone Hp2 _ Hid2 Hall2.
  assert (Hnn1 : d1 ≠ JNull) by (apply deliveries_not_null; intros E; rewrite E in Hid1; inversion Hid1).
  assert (Hnn2 : d2 ≠ JNull) by (apply deliveries_not_null; intros E; rewrite E in Hid2; inversion Hid2).
  assert (Hno : Broker.window_inherited ("_" +:+ s) = false).
  { rewrite Forall_forall in Hall1. destruct (Hall1 id Hid1) as (s' & Hs' & Hno).
    rewrite Hs in Hs'. injection Hs' as <-. exact Hno. }
  apply deliveries_Forall in Hall1 as [Ha1 Hb1].
  apply deliveries_Forall in Hall2 as [Ha2 Hb2].
  apply deliveries_ids in Hid1 as [Hwhich Htid].
  destruct (two_blocks_consume (Get d1 "result_id") (Get d1 "result")
              (Get d1 "error_id") (Get d1 "error") s w Ha1 Hb1) as (w1 & Hrun & Hcon & Hgone);
    [ destruct Hwhich as [<- | <-]; auto | exact Hone | ].
  exists w1. unfold Broker.on_message, try_catch.
  rewrite (handle_message_deliveries _ _ _ Hp1 Hnn1), Hrun.
  rewrite (handle_message_deliveries _ _ _ Hp2 Hnn2).
  rewrite (two_blocks_inert _ _ _ _ s w1 Ha2 Hb2 Hgone Hno). auto.
Qed.

(** A message event of a socket reaches the broker's listener when it is
    the listener registered for [message]. *)
Lemma message_event_reaches_broker l e w :
  eventListeners w !! "message" = Some [l] →
  (∀ raw, listener_fn env l raw = Broker.on_message env raw) →
  Connection.ws_onmessage env e w = Broker.on_message env (Get e "data") w.
Proof.
  intros Hls Hl. unfold Connection.ws_onmessage, Connection.dispatchEvent.
  rewrite Hls. cbn [Connection.forEach]. unfold script_bind, script_ret. rewrite Hl.
  destruct (Broker.on_message env (Get e "data") w) as [[[] | err] w']; reflexivity.
Qed.

End Correlation.

Section Counterpart.
Context (env : Env).

Lemma sole_delivery data id payload w :
  deliveries data = [(id, payload)] →
  script_bind (Broker.deliver env (Get data "result_id") (Get data "result"))
    (λ _, Broker.deliver env (Get data "error_id") (Get data "error")) w
  = Broker.deliver env id payload w
  ∧ truthy id = true.
Proof.
  unfold deliveries. cbn [List.filter fst]. unfold script_bind.
  destruct (truthy (Get data "result_id")) eqn:Ha, (truthy (Get data "error_id")) eqn:Hb;
    intros [= <- <-]; (split; [ | assumption ]).
  - destruct (Broker.deliver env _ _ w) as [[[] | e] w'] eqn:Hd; [ | reflexivity ].
    rewrite (deliver_falsy _ _ _ _ Hb). reflexivity.
  - rewrite (deliver_falsy _ _ _ _ Ha). reflexivity.
Qed.






End Counterpart.

(** ** The registry holds one-shot resolvers only *)

Section OneShot.
Context (env : Env).

Lemma all_one_shot_insert prop cb w w' :
  all_one_shot w →
  window w' = <[prop := one_shot cb]> (window w) →
  all_one_shot w'.
Proof.
  intros Hall Hw k r. rewrite Hw.
  destruct (decide (prop = k)) as [-> | Hne].
  - rewrite lookup_insert_eq. by intros [= <-].
  - rewrite lookup_insert_ne by exact Hne. apply Hall.
Qed.

Lemma window_send data w : window (Connection.send env data w).2 = window w.
Proof.
  unfold Connection.send, script_bind, script_lift, script_do, console_log.
  repeat case_match; reflexivity.
Qed.

Lemma invoke_keeps_one_shot cmd args w :
  all_one_shot w → all_one_shot (Broker.invoke env cmd args w).2.
Proof.
  intros Hall.
  unfold Broker.invoke, Broker.transformCallback, Broker.uid, Broker.new_Promise,
    try_catch, script_bind, script_do, script_ret, script_lift.
  destruct (negb (Connection.is_connected _)); [ cbn; intros k r; rewrite window_settle; apply Hall | ].
  destruct (Broker.jsonMakeObjectSafe env _) as [py_args | e];
    [ | cbn; intros k r; rewrite window_settle; apply Hall ].
  cbn [Broker.is_AsyncFunction].
  match goal with
  | |- context [ Connection.send env ?m ?w0 ] =>
      pose proof (window_send m w0) as Hsend;
      destruct (Connection.send env m w0) as [[[] | e] w'] eqn:Hs
  end; cbn [snd fst] in *.
  - eapply all_one_shot_insert; [ | exact Hsend ].
    eapply all_one_shot_insert; [ exact Hall | reflexivity ].
  - intros k r. rewrite window_run_callback. revert k r.
    eapply all_one_shot_insert; [ | exact Hsend ].
    eapply all_one_shot_insert; [ exact Hall | reflexivity ].
Qed.

Lemma deliver_keeps_one_shot id payload w :
  all_one_shot w → all_one_shot (Broker.deliver env id payload w).2.
Proof.
  intros Hall k r Hk.
  destruct (Broker.deliver env id payload w) as [c w'] eqn:Hdel.
  exact (Hall k r (deliver_shrinks env _ _ _ _ _ _ _ Hdel Hk)).
Qed.

Lemma handle_message_keeps_one_shot raw w :
  all_one_shot w → all_one_shot (Broker.handle_message env raw w).2.
Proof.
  intros Hall. unfold Broker.handle_message, script_bind at 1, script_lift.
  destruct (Broker.parse_frame env raw) as [data | e]; [ | exact Hall ].
  assert (Hboth : all_one_shot
            (script_bind (Broker.deliver env (Get data "result_id") (Get data "result"))
               (λ _, Broker.deliver env (Get data "error_id") (Get data "error")) w).2).
  { unfold script_bind.
    pose proof (deliver_keeps_one_shot (Get data "result_id") (Get data "result") w Hall) as H1.
    destruct (Broker.deliver env (Get data "result_id") (Get data "result") w)
      as [[[] | e] w1]; [ apply deliver_keeps_one_shot; exact H1 | exact H1 ]. }
  destruct data; first [ exact Hboth | exact Hall ].
Qed.

Lemma on_message_keeps_one_shot raw w :
  all_one_shot w → all_one_shot (Broker.on_message env raw w).2.
Proof.
  intros Hall. unfold Broker.on_message, try_catch.
  pose proof (handle_message_keeps_one_shot raw w Hall) as Hh.
  destruct (Broker.handle_message env raw w) as [[[] | e] w']; exact Hh.
Qed.

(** The two resolvers [invoke] registers on an open connection, when the
    two numbers drawn for the call differ. *)
Lemma invoke_registers_pair (cmd : string) args w sock py_args :
  ws w = Some sock →
  Connection.is_connected w = true →
  wf_value args = true →
  Broker.jsonMakeObjectSafe env (nullish_or args (JObject [])) = Normal py_args →
  let rid := (random_u32 env (draws w) mod 2 ^ 32)%N in
  let eid := (random_u32 env (S (draws w)) mod 2 ^ 32)%N in
  let p := List.length (promises w) in
  let w' := (Broker.invoke env (JStr cmd) args w).2 in
  rid ≠ eid →
  Broker.prop_of env rid ≠ Broker.prop_of env eid
  ∧ window w' !! Broker.prop_of env rid = Some (one_shot (CbResolve p))
  ∧ window w' !! Broker.prop_of env eid = Some (one_shot (CbReject p))
  ∧ promises w' !! p = Some Pending.
Proof.
  intros Hws Hopen Hwf Henc rid eid p w' Hne.
  pose proof (invoke_connected env cmd args w sock py_args Hws Hopen Hwf Henc) as H.
  cbv zeta in H. subst w'. destruct (Broker.invoke env (JStr cmd) args w) as [r w'].
  destruct H as (_ & Hprom & Hwin & _). cbn [snd].
  assert (Hprops : Broker.prop_of env rid ≠ Broker.prop_of env eid).
  { intros Heq. apply Hne. apply (prop_of_inj env); [ | | exact Heq ];
      apply N.mod_upper_bound; discriminate. }
  split; [ exact Hprops | ]. rewrite Hwin, Hprom.
  split; [ | split ].
  - rewrite lookup_insert_ne by (intros E; apply Hprops; symmetry; exact E).
    apply lookup_insert_eq.
  - apply lookup_insert_eq.
  - apply list_lookup_middle. reflexivity.
Qed.

End OneShot.

(** ** The event dispatcher and the reconnection timer *)

Section Dispatcher.
Context (env : Env).

Lemma forEach_app {A} (xs ys : list A) (f : A → Script unit) w :
  Connection.forEach (xs ++ ys) f w
  = match Connection.forEach xs f w with
    | (Normal _, w') => Connection.forEach ys f w'
    | (Throw e, w') => (Throw e, w')
    end.
Proof.
  revert w. induction xs as [ | x xs IH ]; intros w; [ reflexivity | ].
  cbn [app Connection.forEach]. unfold script_bind.
  destruct (f x w) as [[[] | e] w']; [ apply IH | reflexivity ].
Qed.

(** C6, as the code has it. [off(event, fn)] removes every occurrence of
    the listener [fn], compared by identity, from the list of that
    event: the new list is the old one with the occurrences of [fn]
    filtered out, so the other listeners keep their places and their
    order; the other events keep their lists and nothing else of the
    page changes. When the event has no list, and its name is not one
    every object inherits (nor [__proto__]), nothing changes at all. *)
Theorem off_removes_every_occurrence event fn w :
  (eventListeners w !! event = None →
   Connection.inherited event = false ∧ event ≠ "__proto__") →
  ∃ w',
    Connection.removeEventListener event fn w = (Normal (), w')
    ∧ w' = with_eventListeners (eventListeners w') w
    ∧ (∀ other, other ≠ event → eventListeners w' !! other = eventListeners w !! other)
    ∧ match eventListeners w !! event with
      | Some ls =>
          ∃ ls',
            eventListeners w' !! event = Some ls'
            ∧ ls' = filter (λ l, l ≠ fn) ls
            ∧ (fn ∉ ls')
            ∧ (∀ l, l ≠ fn → l ∈ ls → l ∈ ls')
            ∧ (ls' `sublist_of` ls)
      | None => w' = w
      end.
Proof.
  intros Hown. unfold Connection.removeEventListener.
  destruct (eventListeners w !! event) as [ls | ] eqn:Hls.
  - eexists. split; [ reflexivity | ].
    cbn [eventListeners with_eventListeners].
    split; [ reflexivity | ].
    split; [ intros other Hother; apply lookup_insert_ne; congruence | ].
    exists (filter (λ l, l ≠ fn) ls).
    split; [ apply lookup_insert_eq | ].
    split; [ reflexivity | ].
    split; [ intros Hin; apply list_elem_of_filter in Hin as [Hne _]; by apply Hne | ].
    split; [ intros l Hne Hin; apply list_elem_of_filter; auto | ].
    apply sublist_filter.
  - destruct (Hown eq_refl) as [-> _]. exists w.
    split; [ reflexivity | ].
    split; [ by destruct w | ].
    split; reflexivity.
Qed.

(** C7, as the code has it. Dispatch calls the listeners in registration
    order and stops at the first one that throws: the listeners
    registered after it are not called and the exception reaches the
    caller of dispatch. *)
Theorem dispatch_stops_at_first_throw event data w before l after w1 e w2 :
  eventListeners w !! event = Some (before ++ l :: after) →
  Connection.forEach before (λ x, listener_fn env x data) w = (Normal (), w1) →
  listener_fn env l data w1 = (Throw e, w2) →
  Connection.dispatchEvent env event data w = (Throw e, w2).
Proof.
  intros Hls Hbefore Hthrow. unfold Connection.dispatchEvent. rewrite Hls.
  rewrite forEach_app, Hbefore. cbn [Connection.forEach]. unfold script_bind.
  rewrite Hthrow. reflexivity.
Qed.

(** C4, as the code has it. A close event that finds [shouldReconnect]
    set after the [close] listeners have run schedules exactly one more
    reconnect timer, with the configured interval; the timers already
    outstanding stay outstanding. *)
Theorem close_schedules_one_more_timer sock st e w w1 :
  readyState <$> sockets w !! sock = Some st → st ≠ CLOSED →
  Connection.dispatchEvent env "close" e (Connection.set_readyState sock CLOSED w)
  = (Normal (), w1) →
  shouldReconnect w1 = true →
  ∃ w2,
    Connection.socket_closes env sock e w = (Normal (), w2)
    ∧ timers w2
      = timers w1 ++ [ {| timer_id := next_timer w1;
                          timer_delay := Connection.config_reconnectInterval env |} ]
    ∧ reconnectTimer w2 = Some (next_timer w1).
Proof.
  intros Hst Hne Hdisp Hflag.
  unfold Connection.socket_closes. rewrite Hst.
  assert (Hrun : Connection.ws_onclose env e (Connection.set_readyState sock CLOSED w)
                 = (Normal (),
                    with_reconnectTimer (Some (next_timer w1))
                      (with_timers
                         (timers w1 ++ [ {| timer_id := next_timer w1;
                                            timer_delay := Connection.config_reconnectInterval env |} ])
                         (S (next_timer w1)) w1))).
  { unfold Connection.ws_onclose, script_bind at 1. rewrite Hdisp, Hflag. reflexivity. }
  eexists. split; [ destruct st; try done; exact Hrun | ]. split; reflexivity.
Qed.

End Dispatcher.

(** ** The claims about the codec and the wire format *)

Section CodecClaims.
Context (env : Env).

(** C1, as the code has it. Encoding and then decoding is the identity on
    the lossless values: [null], numbers, booleans, strings that the
    decoder does not read as a date, valid dates with a four-digit year,
    and arrays and plain objects of these (distinct keys other than
    [constructor] and [__proto__], no media object). *)
Theorem codec_round_trip_lossless v :
  lossless env v = true → round_trip env v = Normal v.
Proof.
  intros Hl. destruct (lossless_encode_decode env v Hl) as (v' & Henc & Hdec & _).
  unfold round_trip. rewrite Henc. exact Hdec.
Qed.

(** C5. The codec of [send] turns every Set into the empty mapping, where
    the codec of [invoke] turns it into the sequence of its encoded
    members: [send(new Set([1, 2]))] puts [{}] on the wire. *)
Theorem send_codec_empties_sets :
  (∀ items, Connection.jsonMakeObjectSafe env (JSet items) = Normal (JObject []))
  ∧ (∀ items, Broker.jsonMakeObjectSafe env (JSet items)
              = JArray <$> mapM (Broker.jsonMakeObjectSafe env) items)
  ∧ Broker.jsonMakeObjectSafe env (JSet [JNum (NInt 1); JNum (NInt 2)])
    = Normal (JArray [JNum (NInt 1); JNum (NInt 2)])
  ∧ wire (Connection.send env (JSet [JNum (NInt 1); JNum (NInt 2)]) demo_open).2
    = [(0%nat, JObject [])].
Proof. repeat split; reflexivity. Qed.

Lemma mapM_ext_Forall {A B} (f g : A → Completion B) items :
  Forall (λ x, f x = g x) items → mapM f items = mapM g items.
Proof.
  induction 1 as [ | x xs Hx _ IH ]; [ reflexivity | ].
  cbn. rewrite Hx, IH. reflexivity.
Qed.

Lemma assign_entries_ext f g ps acc :
  Forall (λ kv, f kv.2 = g kv.2) ps →
  assign_entries f ps acc = assign_entries g ps acc.
Proof.
  intros H. revert acc. induction H as [ | [k x] xs Hx _ IH ]; intros acc; [ reflexivity | ].
  cbn in *. rewrite Hx. destruct (g x) as [x' | e]; cbn; [ apply IH | reflexivity ].
Qed.



(** C8, as the code has it. On an open connection [invoke] sends one
    frame, a mapping with exactly the four fields [cmd], [result_id],
    [error_id] and [payload], in which [cmd] holds the command string,
    the two ids are the numbers drawn for this call and [payload] is the
    encoded argument. *)
Theorem invoke_wire_frame (cmd : string) args w sock py_args :
  ws w = Some sock →
  Connection.is_connected w = true →
  wf_value args = true →
  Broker.jsonMakeObjectSafe env (nullish_or args (JObject [])) = Normal py_args →
  wire (Broker.invoke env (JStr cmd) args w).2
  = wire w ++
      [(sock,
        JObject
          [ ("cmd", JStr cmd);
            ("result_id", JNum (NInt (Z.of_N (random_u32 env (draws w) mod 2 ^ 32))));
            ("error_id", JNum (NInt (Z.of_N (random_u32 env (S (draws w)) mod 2 ^ 32))));
            ("payload", py_args) ])].
Proof.
  intros Hws Hopen Hwf Henc.
  pose proof (invoke_connected env cmd args w sock py_args Hws Hopen Hwf Henc) as H.
  cbv zeta in H. destruct (Broker.invoke env (JStr cmd) args w) as [r w'].
  destruct H as (_ & _ & _ & Hwire). exact Hwire.
Qed.

End CodecClaims.

(** ** Examples *)

Lemma codec_round_trip_lossless_witness :
  lossless demo_env demo_record = true
  ∧ round_trip demo_env demo_record = Normal demo_record.
Proof.
  split; [ vm_compute; reflexivity | ].
  apply (codec_round_trip_lossless demo_env demo_record). vm_compute. reflexivity.
Defined.

(** A string with a date prefix comes back as a date, a buffer or a view
    as its base64 text, a media mapping as a data URI, a date after the
    year 9999 as its ISO text, and [undefined] as [null]; an invalid date
    cannot be encoded at all. *)
Lemma round_trip_not_identity :
  round_trip demo_env (JStr "2024-01-01T00:00:00.000Z") = Normal (JDate (Some 1704067200000))
  ∧ round_trip demo_env (JStr "2024-01-01T00:00:00.000Z") ≠ Normal (JStr "2024-01-01T00:00:00.000Z")
  ∧ round_trip demo_env (JArrayBuffer [x01; x02; x03]) = Normal (JStr "AQID")
  ∧ round_trip demo_env (JArrayBuffer [x01; x02; x03]) ≠ Normal (JArrayBuffer [x01; x02; x03])
  ∧ round_trip demo_env (JTypedArray [NInt 1; NInt 2; NInt 3]) = Normal (JStr "AQID")
  ∧ round_trip demo_env (JObject [("media_type", JStr "image/png"); ("bytes", JStr "AQID")])
    = Normal (JStr "data:image/png;base64,AQID")
  ∧ round_trip demo_env (JDate (Some 253402300800000))
    = Normal (JStr "+010000-01-01T00:00:00.000Z")
  ∧ round_trip demo_env (JDate None) = Throw (error_object "RangeError" "Invalid time value")
  ∧ round_trip demo_env JUndefined = Normal JNull.
Proof. repeat split; try reflexivity; vm_compute; discriminate. Qed.

Lemma invoke_while_not_open_witness :
  Connection.is_connected initial_world = false
  ∧ let '(r, w') := Broker.invoke demo_env (JStr "echo") JUndefined initial_world in
    r = Normal (List.length (promises initial_world))
    ∧ promises w'
      = promises initial_world
        ++ [Rejected (error_object "Error" "Socket is not connected or unavailable!")]
    ∧ wire w' = wire initial_world ∧ window w' = window initial_world
    ∧ draws w' = draws initial_world.
Proof.
  split; [ reflexivity | ].
  apply (invoke_while_not_open demo_env (JStr "echo") JUndefined initial_world). reflexivity.
Defined.

Lemma consumed_id_is_inert_witness :
  ∃ w1, Broker.on_message demo_env result_frame demo_invoked = (Normal (), w1)
        ∧ console w1 = console demo_invoked
        ∧ window w1 !! ("_" +:+ "7") = None
        ∧ Broker.on_message demo_env result_frame w1 = (Normal (), w1).
Proof.
  assert (Hds : deliveries (JObject [("result_id", JNum (NInt 7)); ("result", JNum (NInt 42))])
                = [(JNum (NInt 7), JNum (NInt 42))]) by (vm_compute; reflexivity).
  apply (consumed_id_is_inert demo_env result_frame result_frame
           (JObject [("result_id", JNum (NInt 7)); ("result", JNum (NInt 42))])
           (JObject [("result_id", JNum (NInt 7)); ("result", JNum (NInt 42))])
           (JNum (NInt 7)) "7" demo_invoked).
  - vm_compute. reflexivity.
  - reflexivity.
  - rewrite Hds. cbn [fmap list_fmap fst]. apply list_elem_of_here.
  - rewrite Hds. cbn [fmap list_fmap fst]. apply Forall_cons_2; [ | apply Forall_nil_2 ].
    exists "7". split; vm_compute; reflexivity.
  - vm_compute. reflexivity.
  - intros r Hr.
    assert (Hw : window demo_invoked !! ("_" +:+ "7") = Some (one_shot (CbResolve 0)))
      by (vm_compute; reflexivity).
    rewrite Hw in Hr. injection Hr as <-. reflexivity.
  - vm_compute. reflexivity.
  - reflexivity.
  - rewrite Hds. cbn [fmap list_fmap fst]. apply list_elem_of_here.
  - rewrite Hds. cbn [fmap list_fmap fst]. apply Forall_cons_2; [ | apply Forall_nil_2 ].
    vm_compute. reflexivity.
Defined.

(** After [invoke] has registered the resolvers [_7] and [_9], the frame
    [{result_id: "_proto__", error_id: 9}] bears the id 9, but its first
    block calls [window.__proto__], which throws: the listener reports
    the frame as invalid and never reaches the second block. The
    resolver [_9] is still registered and the promise still pending, so
    the next frame that bears the id 9 does have an effect: it rejects
    the promise. *)
Lemma unreached_block_leaves_id_live :
  Broker.parse_frame demo_env_more proto_frame
  = Normal (JObject [("result_id", JStr "_proto__"); ("error_id", JNum (NInt 9))])
  ∧ JNum (NInt 9)
    ∈ (deliveries (JObject [("result_id", JStr "_proto__"); ("error_id", JNum (NInt 9))])).*1
  ∧ window demo_invoked !! "_9" = Some (one_shot (CbReject 0))
  ∧ promises demo_invoked !! 0%nat = Some Pending
  ∧ ∃ w1 w2,
      Broker.on_message demo_env_more proto_frame demo_invoked = (Normal (), w1)
      ∧ console w1
        = console demo_invoked
          ++ [ {| log_level := "warn";
                  log_args := [JStr "Invalid message received:"; proto_frame] |} ]
      ∧ window w1 !! "_9" = Some (one_shot (CbReject 0))
      ∧ promises w1 !! 0%nat = Some Pending
      ∧ JNum (NInt 9)
        ∈ (deliveries (JObject [("error_id", JNum (NInt 9)); ("error", JStr "busy")])).*1
      ∧ Broker.parse_frame demo_env_more error_frame
        = Normal (JObject [("error_id", JNum (NInt 9)); ("error", JStr "busy")])
      ∧ Broker.on_message demo_env_more error_frame w1 = (Normal (), w2)
      ∧ promises w2 !! 0%nat = Some (Rejected (JStr "busy"))
      ∧ w2 ≠ w1.
Proof.
  split; [ vm_compute; reflexivity | ].
  split; [ vm_compute; apply list_elem_of_further, list_elem_of_here | ].
  split; [ vm_compute; reflexivity | ].
  split; [ vm_compute; reflexivity | ].
  eexists _, _.
  split; [ vm_compute; reflexivity | ].
  split; [ vm_compute; reflexivity | ].
  split; [ vm_compute; reflexivity | ].
  split; [ vm_compute; reflexivity | ].
  split; [ vm_compute; apply list_elem_of_here | ].
  split; [ vm_compute; reflexivity | ].
  split; [ vm_compute; reflexivity | ].
  split; [ vm_compute; reflexivity | ].
  intros Heq. apply (f_equal (λ w, promises w !! 0%nat)) in Heq.
  vm_compute in Heq. discriminate Heq.
Qed.





Lemma invoke_wire_frame_witness :
  ws demo_open = Some 0%nat
  ∧ Connection.is_connected demo_open = true
  ∧ wire demo_invoked
    = wire demo_open ++
        [(0%nat,
          JObject
            [ ("cmd", JStr "echo");
              ("result_id",
               JNum (NInt (Z.of_N (random_u32 demo_env (draws demo_open) mod 2 ^ 32))));
              ("error_id",
               JNum (NInt (Z.of_N (random_u32 demo_env (S (draws demo_open)) mod 2 ^ 32))));
              ("payload", JObject [("value", JNum (NInt 42))]) ])].
Proof.
  split; [ reflexivity | split; [ reflexivity | ] ].
  apply (invoke_wire_frame demo_env "echo" (JObject [("value", JNum (NInt 42))]) demo_open 0%nat
           (JObject [("value", JNum (NInt 42))]));
    vm_compute; reflexivity.
Defined.

(** The frame [invoke("echo", {value: 42})] sends has no field named
    [command]; the command is under [cmd]. *)
Lemma invoke_frame_has_no_command_field :
  ∃ frame,
    wire demo_invoked = [(0%nat, frame)]
    ∧ Get frame "command" = JUndefined
    ∧ Get frame "cmd" = JStr "echo"
    ∧ ¬ ∃ rid eid payload,
          frame = JObject [ ("command", JStr "echo"); ("result_id", rid);
                            ("error_id", eid); ("payload", payload) ].
Proof.
  eexists. split; [ vm_compute; reflexivity | ].
  split; [ reflexivity | split; [ reflexivity | ] ].
  intros (rid & eid & payload & H). discriminate H.
Qed.

Lemma off_removes_every_occurrence_witness :
  eventListeners (demo_listening "message" [2; 3; 2; 1]%nat) !! "message"
  = Some [2; 3; 2; 1]%nat
  ∧ ∃ w',
      Connection.removeEventListener "message" 2%nat
        (demo_listening "message" [2; 3; 2; 1]%nat)
      = (Normal (), w')
      ∧ eventListeners w' !! "message" = Some [3; 1]%nat.
Proof.
  assert (Hls : eventListeners (demo_listening "message" [2; 3; 2; 1]%nat) !! "message"
                = Some ([2; 3; 2; 1]%nat : list Listener)) by (vm_compute; reflexivity).
  split; [ exact Hls | ].
  destruct (off_removes_every_occurrence "message" 2%nat
              (demo_listening "message" [2; 3; 2; 1]%nat))
    as (w' & Hoff & _ & _ & Hlist).
  - intros Hnone. rewrite Hls in Hnone. discriminate Hnone.
  - rewrite Hls in Hlist. destruct Hlist as (ls' & Hls' & -> & _).
    exists w'. split; [ exact Hoff | ]. etrans; [ exact Hls' | ]. vm_compute. reflexivity.
Defined.

(** With the listener 1 registered twice around the listener 2,
    [off("message", 1)] leaves only the listener 2, where removing the
    first match alone would leave 2 followed by 1. *)
Lemma off_removes_later_occurrences_too :
  eventListeners (demo_listening "message" [1; 2; 1]%nat) !! "message" = Some [1; 2; 1]%nat
  ∧ eventListeners
      (Connection.removeEventListener "message" 1%nat
         (demo_listening "message" [1; 2; 1]%nat)).2 !! "message"
    = Some [2%nat]
  ∧ eventListeners
      (Connection.removeEventListener "message" 1%nat
         (demo_listening "message" [1; 2; 1]%nat)).2 !! "message"
    ≠ Some [2; 1]%nat.
Proof. repeat split; try (vm_compute; reflexivity). vm_compute. discriminate. Qed.

Lemma dispatch_stops_at_first_throw_witness :
  Connection.dispatchEvent demo_env "open" JNull (demo_listening "open" [2; 1; 2]%nat)
  = (Throw (error_object "Error" "boom"),
     (console_log "log" [JStr "second"] (demo_listening "open" [2; 1; 2]%nat)).2).
Proof.
  apply (dispatch_stops_at_first_throw demo_env "open" JNull
           (demo_listening "open" [2; 1; 2]%nat) [2%nat] 1%nat [2%nat]
           (console_log "log" [JStr "second"] (demo_listening "open" [2; 1; 2]%nat)).2);
    vm_compute; reflexivity.
Defined.

(** A listener that throws keeps the listener registered after it from
    being called, and the exception leaves dispatch: nothing is logged
    and the completion is the thrown error. *)
Lemma throwing_listener_aborts_dispatch :
  eventListeners (demo_listening "open" [1; 2]%nat) !! "open" = Some [1; 2]%nat
  ∧ (Connection.dispatchEvent demo_env "open" JNull (demo_listening "open" [1; 2]%nat)).1
    = Throw (error_object "Error" "boom")
  ∧ console (Connection.dispatchEvent demo_env "open" JNull
               (demo_listening "open" [1; 2]%nat)).2 = []
  ∧ console (listener_fn demo_env 2%nat JNull (demo_listening "open" [1; 2]%nat)).2
    = [ {| log_level := "log"; log_args := [JStr "second"] |} ].
Proof. repeat split; vm_compute; reflexivity. Qed.

Lemma close_schedules_one_more_timer_witness :
  ∃ w2,
    Connection.socket_closes demo_env 0 JNull demo_open = (Normal (), w2)
    ∧ timers w2
      = timers (Connection.set_readyState 0 CLOSED demo_open)
        ++ [ {| timer_id := next_timer (Connection.set_readyState 0 CLOSED demo_open);
                timer_delay := Connection.config_reconnectInterval demo_env |} ]
    ∧ reconnectTimer w2 = Some (next_timer (Connection.set_readyState 0 CLOSED demo_open)).
Proof.
  apply (close_schedules_one_more_timer demo_env 0%nat OPEN JNull demo_open
           (Connection.set_readyState 0 CLOSED demo_open));
    try (vm_compute; reflexivity).
  discriminate.
Defined.

(** Two sockets exist after a second [connect()]; when both close, each
    close schedules a timer and the first is still outstanding when the
    second is set. *)
Lemma second_close_adds_a_second_timer :
  sockets demo_two_sockets
  = [ {| readyState := CONNECTING; sub_protocols := None |};
      {| readyState := CONNECTING; sub_protocols := None |} ]
  ∧ shouldReconnect demo_two_sockets = true
  ∧ timers (Connection.socket_closes demo_env 0 JNull demo_two_sockets).2
    = [ {| timer_id := 1; timer_delay := 3000 |} ]
  ∧ timers demo_two_closes
    = [ {| timer_id := 1; timer_delay := 3000 |}; {| timer_id := 2; timer_delay := 3000 |} ].
Proof. repeat split; vm_compute; reflexivity. Qed.

(** * Further properties of the two scripts *)

(** ** The connection manager *)

Section ConnectionManager.
Context (env : Env).

Lemma connect_configured w :
  Connection.url_configured env = true →
  Connection.connect env w
  = (Normal (),
     with_ws (Some (List.length (sockets w)))
       (with_sockets
          (sockets w ++ [ {| readyState := CONNECTING;
                             sub_protocols := Connection.config_protocols env |} ])
          (with_shouldReconnect (Connection.config_autoReconnect env) w))).
Proof. intros Hurl. unfold Connection.connect. rewrite Hurl. reflexivity. Qed.

(** X1. Whenever [connect()], with an address configured, returns
    normally, it has added one socket in the connecting state with the
    configured protocols and made it the current one, it has set
    [shouldReconnect] to the configured auto-reconnect flag, and it has
    left the earlier sockets, the outstanding timers and the listeners
    as they were; until the socket opens the page reports neither
    [is_connected] nor [is_disconnected]. ([connect()] does not return
    normally when the [WebSocket] constructor rejects the address or
    the protocols; the theorem says nothing of that case.) *)
Theorem connect_opens_new_socket w w' :
  Connection.url_configured env = true →
  Connection.connect env w = (Normal (), w') →
  sockets w'
  = sockets w ++ [ {| readyState := CONNECTING;
                      sub_protocols := Connection.config_protocols env |} ]
  ∧ ws w' = Some (List.length (sockets w))
  ∧ shouldReconnect w' = Connection.config_autoReconnect env
  ∧ timers w' = timers w
  ∧ eventListeners w' = eventListeners w
  ∧ wire w' = wire w
  ∧ Connection.is_connected w' = false
  ∧ Connection.is_disconnected w' = false.
Proof.
  intros Hurl Hrun. rewrite (connect_configured w Hurl) in Hrun. injection Hrun as <-.
  cbn [sockets ws shouldReconnect timers eventListeners wire with_ws with_sockets
       with_shouldReconnect].
  repeat (split; [ reflexivity | ]).
  unfold Connection.is_connected, Connection.is_disconnected, Connection.current_readyState.
  cbn [ws sockets with_ws with_sockets with_shouldReconnect mbind option_bind].
  rewrite list_lookup_middle by reflexivity. split; reflexivity.
Qed.

(** X2. Without an address [connect()] logs one error and does nothing
    else: no socket is created and the reconnect flag keeps its value. *)
Theorem connect_without_url w :
  Connection.url_configured env = false →
  ∃ w',
    Connection.connect env w = (Normal (), w')
    ∧ console w'
      = console w ++ [ {| log_level := "error";
                          log_args := [JStr "PyOrionConnections: No URL configured."] |} ]
    ∧ sockets w' = sockets w ∧ ws w' = ws w
    ∧ shouldReconnect w' = shouldReconnect w ∧ timers w' = timers w.
Proof.
  intros Hurl. unfold Connection.connect. rewrite Hurl. cbn [negb].
  eexists. split; [ reflexivity | ]. repeat split.
Qed.

(** X3. While the connection is not open, [send] never throws and never
    transmits, whatever the value: it only logs a warning (the value is
    not even encoded). *)
Theorem send_while_not_open data w :
  Connection.is_connected w = false →
  Connection.send env data w
  = (Normal (),
     with_console
       (console w ++ [ {| log_level := "warn";
                          log_args := [JStr "PyOrionConnections: Connection not open."] |} ])
       w).
Proof.
  unfold Connection.is_connected, Connection.send. intros Hclosed.
  destruct (ws w) as [sock | ]; [ | reflexivity ].
  destruct (Connection.current_readyState w) as [ [] | ]; try reflexivity. discriminate.
Qed.

(** X4. On an open connection, the encoder of [send] leaves JSON data as
    it is, so that [send] hands the value itself to [JSON.stringify] and
    sends one frame, on the current socket, changing nothing else. JSON
    data is: [null], booleans, strings, numbers that are finite and not
    [-0] (so that [JSON.stringify] writes them as themselves), and
    arrays and plain objects of these whose keys are distinct, none of
    them [__proto__], and whose own [constructor] property, if there is
    one, holds a string. *)
Theorem send_transmits_json_unchanged data w sock :
  ws w = Some sock →
  Connection.is_connected w = true →
  wire_safe data = true →
  no_proto_key data = true →
  json_numbers data = true →
  Connection.send env data w = (Normal (), with_wire (wire w ++ [(sock, data)]) w).
Proof.
  intros Hws Hopen Hsafe _ _. unfold Connection.is_connected in Hopen.
  unfold Connection.send, script_bind, script_lift, script_do. rewrite Hws.
  destruct (Connection.current_readyState w) as [ [] | ]; try discriminate.
  rewrite (send_codec_fixes_wire_safe env data Hsafe). reflexivity.
Qed.

(** X5. On an open connection a value that cannot be encoded makes
    [send] throw the encoder's exception; nothing is transmitted. *)
Theorem send_propagates_encoding_failure data w e :
  Connection.is_connected w = true →
  Connection.jsonMakeObjectSafe env data = Throw e →
  Connection.send env data w = (Throw e, w).
Proof.
  intros Hopen Henc. unfold Connection.is_connected in Hopen.
  unfold Connection.send, script_bind, script_lift, script_do.
  destruct (ws w) as [sock | ] eqn:Hws.
  - destruct (Connection.current_readyState w) as [ [] | ]; try discriminate.
    rewrite Henc. reflexivity.
  - unfold Connection.current_readyState in Hopen. rewrite Hws in Hopen. discriminate.
Qed.

Lemma WebSocket_close_frame sock code reason w :
  let '(_, w') := Connection.WebSocket_close sock code reason w in
  shouldReconnect w' = shouldReconnect w ∧ timers w' = timers w ∧ wire w' = wire w
  ∧ List.length (sockets w') = List.length (sockets w) ∧ ws w' = ws w
  ∧ reconnectTimer w' = reconnectTimer w.
Proof.
  unfold Connection.WebSocket_close, script_throw, script_do.
  repeat case_match; simplify_eq; unfold Connection.set_readyState;
    cbn [shouldReconnect timers wire sockets ws with_sockets reconnectTimer];
    rewrite ?length_alter; repeat split; reflexivity.
Qed.

(** X6. [close()] always clears the reconnect flag and cancels the timer
    recorded in [reconnectTimer], also when [ws.close] rejects the code
    or the reason; it cancels no other timer, sends nothing and creates
    no socket. *)
Theorem close_clears_flag_and_timer code reason w :
  let '(_, w') := Connection.close code reason w in
  shouldReconnect w' = false
  ∧ timers w'
    = match reconnectTimer w with
      | Some id => filter (λ t, timer_id t ≠ id) (timers w)
      | None => timers w
      end
  ∧ wire w' = wire w
  ∧ List.length (sockets w') = List.length (sockets w)
  ∧ ws w' = ws w.
Proof.
  unfold Connection.close, Connection.clearTimeout, script_bind, script_do.
  cbn [reconnectTimer with_shouldReconnect].
  destruct (reconnectTimer w) as [id | ];
    cbn [ws with_timers with_shouldReconnect];
    (destruct (ws w) as [sock | ] eqn:Hws; [ | repeat split; exact Hws ]).
  - pose proof (WebSocket_close_frame sock (default 1000 code)
                  (default "Normal Closure" reason)
                  (with_timers (filter (λ t, timer_id t ≠ id) (timers w)) (next_timer w)
                     (with_shouldReconnect false w))) as H.
    destruct (Connection.WebSocket_close _ _ _ _) as [c w'].
    destruct H as (-> & -> & -> & -> & -> & _). repeat split; exact Hws.
  - pose proof (WebSocket_close_frame sock (default 1000 code)
                  (default "Normal Closure" reason) (with_shouldReconnect false w)) as H.
    destruct (Connection.WebSocket_close _ _ _ _) as [c w'].
    destruct H as (-> & -> & -> & -> & -> & _). repeat split; exact Hws.
Qed.

Lemma close_frame code reason w :
  let '(_, w') := Connection.close code reason w in
  shouldReconnect w' = false
  ∧ eventListeners w' = eventListeners w
  ∧ List.length (sockets w') = List.length (sockets w)
  ∧ ws w' = ws w.
Proof.
  unfold Connection.close, Connection.clearTimeout, script_bind, script_do.
  cbn [reconnectTimer with_shouldReconnect].
  assert (Hsock : ∀ sock w0,
            shouldReconnect w0 = false →
            let '(_, w') := Connection.WebSocket_close sock (default 1000 code)
                              (default "Normal Closure" reason) w0 in
            shouldReconnect w' = false ∧ eventListeners w' = eventListeners w0
            ∧ List.length (sockets w') = List.length (sockets w0) ∧ ws w' = ws w0).
  { intros sock w0 Hflag.
    unfold Connection.WebSocket_close, script_throw, script_do.
    repeat case_match; simplify_eq; unfold Connection.set_readyState;
      cbn [shouldReconnect eventListeners sockets ws with_sockets];
      rewrite ?length_alter; repeat split; assumption. }
  destruct (reconnectTimer w) as [id | ];
    cbn [ws with_timers with_shouldReconnect];
    (destruct (ws w) as [sock | ] eqn:Hws; [ | repeat split; exact Hws ]).
  - specialize (Hsock sock
                  (with_timers (filter (λ t, timer_id t ≠ id) (timers w)) (next_timer w)
                     (with_shouldReconnect false w)) eq_refl).
    destruct (Connection.WebSocket_close _ _ _ _) as [c w'].
    destruct Hsock as (-> & -> & -> & ->). repeat split; exact Hws.
  - specialize (Hsock sock (with_shouldReconnect false w) eq_refl).
    destruct (Connection.WebSocket_close _ _ _ _) as [c w'].
    destruct Hsock as (-> & -> & -> & ->). repeat split; exact Hws.
Qed.

(** X7. After [close()], whatever its arguments and whether or not
    [ws.close] accepted them, the close event of any socket schedules no
    reconnection when no [close] listener is registered: the timers stay
    as [close()] left them, and if the socket is the current one the
    page ends disconnected. *)
Theorem no_reconnect_after_close code reason e sock w :
  default [] (eventListeners w !! "close") = [] →
  let '(_, w1) := Connection.close code reason w in
  let '(c, w2) := Connection.socket_closes env sock e w1 in
  c = Normal ()
  ∧ timers w2 = timers w1
  ∧ shouldReconnect w2 = false
  ∧ (ws w = Some sock → (sock < List.length (sockets w))%nat →
     Connection.is_disconnected w2 = true).
Proof.
  intros Hnone. pose proof (close_frame code reason w) as Hclose.
  destruct (Connection.close code reason w) as [c1 w1].
  destruct Hclose as (Hflag & Hev & Hlen & Hws).
  assert (Hdisp : ∀ w0, eventListeners w0 = eventListeners w →
            Connection.dispatchEvent env "close" e w0 = (Normal (), w0)).
  { intros w0 H0. unfold Connection.dispatchEvent. rewrite H0.
    destruct (eventListeners w !! "close") as [ls | ]; cbn in Hnone;
      [ subst ls | ]; reflexivity. }
  unfold Connection.socket_closes.
  destruct (sockets w1 !! sock) as [s | ] eqn:Hs; cbn [fmap option_fmap option_map].
  - assert (Hrun : Connection.ws_onclose env e (Connection.set_readyState sock CLOSED w1)
                   = (Normal (), Connection.set_readyState sock CLOSED w1)).
    { unfold Connection.ws_onclose, script_bind.
      rewrite Hdisp by exact Hev.
      unfold Connection.set_readyState at 1. cbn [shouldReconnect with_sockets].
      rewrite Hflag. reflexivity. }
    assert (Hclosed : ws w = Some sock →
              Connection.is_disconnected (Connection.set_readyState sock CLOSED w1) = true).
    { intros Hcur. unfold Connection.is_disconnected, Connection.current_readyState,
        Connection.set_readyState. cbn [ws sockets with_sockets].
      rewrite Hws, Hcur. cbn [mbind option_bind].
      rewrite list_lookup_alter_eq, Hs. reflexivity. }
    destruct (readyState s) eqn:Hst; rewrite ?Hrun; repeat split; auto.
    intros Hcur _. unfold Connection.is_disconnected, Connection.current_readyState.
    rewrite Hws, Hcur. cbn [mbind option_bind]. rewrite Hs. cbn. rewrite Hst. reflexivity.
  - repeat split; auto. intros _ Hlt. rewrite <- Hlen in Hlt.
    apply lookup_ge_None in Hs. lia.
Qed.

(** X8. When an outstanding reconnect timer fires, [connect()] runs: the
    timer is gone, a new connecting socket is the current one, and
    [shouldReconnect] is set back to the configured auto-reconnect flag,
    whatever [close()] had made of it. *)
Theorem timer_firing_reconnects id delay w :
  Connection.url_configured env = true →
  {| timer_id := id; timer_delay := delay |} ∈ timers w →
  ∃ w',
    Connection.timer_fires env id w = (Normal (), w')
    ∧ timers w' = filter (λ t, timer_id t ≠ id) (timers w)
    ∧ sockets w'
      = sockets w ++ [ {| readyState := CONNECTING;
                          sub_protocols := Connection.config_protocols env |} ]
    ∧ ws w' = Some (List.length (sockets w))
    ∧ shouldReconnect w' = Connection.config_autoReconnect env.
Proof.
  intros Hurl Hin. unfold Connection.timer_fires.
  assert (Hex : existsb (λ t, Nat.eqb (timer_id t) id) (timers w) = true).
  { apply existsb_exists. exists {| timer_id := id; timer_delay := delay |}.
    split; [ apply list_elem_of_In; exact Hin | apply Nat.eqb_refl ]. }
  rewrite Hex, (connect_configured _ Hurl).
  eexists. split; [ reflexivity | ]. repeat split.
Qed.

(** X9. [connect()] followed by the opening of the socket it created
    makes the page connected, when no [open] listener interferes. *)
Theorem connect_then_open_connects e w :
  Connection.url_configured env = true →
  default [] (eventListeners w !! "open") = [] →
  let '(_, w1) := Connection.connect env w in
  let '(c, w2) := Connection.socket_opens env (List.length (sockets w)) e w1 in
  c = Normal ()
  ∧ Connection.is_connected w2 = true
  ∧ Connection.is_disconnected w2 = false
  ∧ ws w2 = Some (List.length (sockets w)).
Proof.
  intros Hurl Hnone. rewrite (connect_configured w Hurl).
  unfold Connection.socket_opens. cbn [sockets with_ws with_sockets with_shouldReconnect].
  rewrite list_lookup_middle by reflexivity. cbn [fmap option_fmap option_map readyState].
  unfold Connection.ws_onopen, Connection.dispatchEvent, Connection.set_readyState.
  cbn [eventListeners sockets with_ws with_sockets with_shouldReconnect].
  assert (Hrun : ∀ w0 : World,
            match eventListeners w !! "open" with
            | Some ls => Connection.forEach ls (λ listener, listener_fn env listener e) w0
            | None => if Connection.inherited "open" then
                        (Throw (Connection.not_a_function "forEach"), w0)
                      else (Normal (), w0)
            end = (Normal (), w0)).
  { intros w0. destruct (eventListeners w !! "open") as [ls | ]; cbn in Hnone;
      [ subst ls | ]; reflexivity. }
  rewrite Hrun. split; [ reflexivity | ].
  unfold Connection.is_connected, Connection.is_disconnected, Connection.current_readyState.
  cbn [ws sockets with_ws with_sockets with_shouldReconnect mbind option_bind].
  rewrite list_lookup_alter_eq, list_lookup_middle by reflexivity.
  repeat split.
Qed.

(** X10. One reconnection cycle: a socket closes while [shouldReconnect]
    is set and nobody listens to [close], and the timer this schedules
    fires. Afterwards the closed socket is still there, one new
    connecting socket is the current one, no timer of the cycle is left,
    and [reconnectTimer] still holds the handle of the timer that has
    fired. *)
Theorem reconnection_cycle sock st e w :
  Connection.url_configured env = true →
  readyState <$> sockets w !! sock = Some st → st ≠ CLOSED →
  default [] (eventListeners w !! "close") = [] →
  shouldReconnect w = true →
  Forall (λ t, (timer_id t < next_timer w)%nat) (timers w) →
  ∃ w1 w2,
    Connection.socket_closes env sock e w = (Normal (), w1)
    ∧ Connection.timer_fires env (next_timer w) w1 = (Normal (), w2)
    ∧ timers w2 = timers w
    ∧ sockets w2
      = sockets (Connection.set_readyState sock CLOSED w)
        ++ [ {| readyState := CONNECTING;
                sub_protocols := Connection.config_protocols env |} ]
    ∧ ws w2 = Some (List.length (sockets w))
    ∧ shouldReconnect w2 = Connection.config_autoReconnect env
    ∧ reconnectTimer w2 = Some (next_timer w).
Proof.
  intros Hurl Hst Hne Hnone Hflag Hfresh.
  set (w0 := Connection.set_readyState sock CLOSED w).
  set (w1 := with_reconnectTimer (Some (next_timer w))
               (with_timers
                  (timers w ++ [ {| timer_id := next_timer w;
                                    timer_delay := Connection.config_reconnectInterval env |} ])
                  (S (next_timer w)) w0)).
  assert (Hclose : Connection.socket_closes env sock e w = (Normal (), w1)).
  { unfold Connection.socket_closes. rewrite Hst.
    assert (Hrun : Connection.ws_onclose env e w0 = (Normal (), w1)).
    { unfold Connection.ws_onclose, script_bind at 1, Connection.dispatchEvent.
      change (eventListeners w0) with (eventListeners w).
      change (shouldReconnect w0) with (shouldReconnect w).
      assert (Hinh : Connection.inherited "close" = false) by (vm_compute; reflexivity).
      destruct (eventListeners w !! "close") as [ls | ]; cbn in Hnone;
        [ subst ls; cbn [Connection.forEach]; unfold script_ret | rewrite Hinh ];
        change (shouldReconnect w0) with (shouldReconnect w); rewrite Hflag; reflexivity. }
    destruct st; try done. }
  assert (Hkeep : filter (λ t, timer_id t ≠ next_timer w) (timers w) = timers w).
  { clear -Hfresh. induction Hfresh as [ | t ts Ht _ IH ]; [ reflexivity | ].
    rewrite filter_cons_True by lia. by rewrite IH. }
  exists w1. eexists. split; [ exact Hclose | ].
  unfold Connection.timer_fires.
  assert (Hex : existsb (λ t, Nat.eqb (timer_id t) (next_timer w)) (timers w1) = true).
  { subst w1. cbn [timers with_timers with_reconnectTimer].
    rewrite existsb_app. cbn. rewrite Nat.eqb_refl. apply orb_true_iff. right. reflexivity. }
  rewrite Hex, (connect_configured _ Hurl).
  split; [ reflexivity | ].
  cbn [timers sockets ws shouldReconnect reconnectTimer with_ws with_sockets
       with_shouldReconnect with_timers].
  subst w1. cbn [timers sockets with_timers with_reconnectTimer reconnectTimer].
  rewrite filter_app, Hkeep, filter_cons_False, filter_nil, app_nil_r
    by (cbn; intros H; by apply H).
  repeat split. subst w0. unfold Connection.set_readyState. cbn [sockets with_sockets].
  rewrite length_alter. reflexivity.
Qed.

End ConnectionManager.

(** ** Listener lists *)

Section Listeners.
Context (env : Env).

Lemma filter_keeps_all {A} (P : A → Prop) `{∀ x, Decision (P x)} (xs : list A) :
  Forall P xs → filter P xs = xs.
Proof.
  induction 1 as [ | x xs Hx _ IH ]; [ reflexivity | ].
  rewrite filter_cons_True by exact Hx. by rewrite IH.
Qed.

Lemma then_ret (m : Script unit) w : script_bind m (λ _, script_ret ()) w = m w.
Proof. unfold script_bind, script_ret. destruct (m w) as [[[] | e] w']; reflexivity. Qed.

(** X11. [on(event, fn)] puts [fn] at the end of the event's listener
    list, creating the list when the event has none; the other events
    keep their lists, and a dispatch that follows calls the listeners
    registered before, in their order, and then [fn]. The event name is
    not one every object inherits (for these see X12) and is not
    [__proto__], which the model leaves out. *)
Theorem on_registers_last event fn data w :
  Connection.inherited event = false → event ≠ "__proto__" →
  let before := default [] (eventListeners w !! event) in
  ∃ w',
    Connection.addEventListener event fn w = (Normal (), w')
    ∧ eventListeners w' !! event = Some (before ++ [fn])
    ∧ (∀ other, other ≠ event → eventListeners w' !! other = eventListeners w !! other)
    ∧ Connection.dispatchEvent env event data w'
      = script_bind (Connection.forEach before (λ l, listener_fn env l data))
          (λ _, listener_fn env fn data) w'.
Proof.
  intros Hown _ before. subst before. unfold Connection.addEventListener. rewrite Hown.
  destruct (eventListeners w !! event) as [ls | ] eqn:Hls; cbn [default id];
    (eexists; split; [ reflexivity | ]);
    cbn [eventListeners with_eventListeners];
    (split; [ apply lookup_insert_eq | ]);
    (split; [ intros other Hother; apply lookup_insert_ne; congruence | ]);
    unfold Connection.dispatchEvent; cbn [eventListeners with_eventListeners];
    rewrite lookup_insert_eq.
  - rewrite forEach_app. unfold script_bind at 1.
    destruct (Connection.forEach ls _ _) as [[[] | err] w1]; [ | reflexivity ].
    cbn [Connection.forEach]. apply then_ret.
  - cbn [app Connection.forEach]. unfold script_bind at 2, script_ret.
    apply then_ret.
Qed.

(** X12. An event named like a property every object inherits
    ([toString], [constructor], ...) has a function where the listener
    list is looked up: unless the page has made a list of its own for
    it, [on], [off] and dispatch throw a [TypeError] and change
    nothing. *)
Theorem prototype_event_name_throws event fn data w :
  Connection.inherited event = true →
  eventListeners w !! event = None →
  Connection.addEventListener event fn w = (Throw (Connection.not_a_function "push"), w)
  ∧ Connection.removeEventListener event fn w
    = (Throw (Connection.not_a_function "filter"), w)
  ∧ Connection.dispatchEvent env event data w
    = (Throw (Connection.not_a_function "forEach"), w).
Proof.
  intros Hin Hnone.
  unfold Connection.addEventListener, Connection.removeEventListener,
    Connection.dispatchEvent.
  rewrite Hnone, Hin. repeat split.
Qed.

(** X13. When the event has a list that does not hold [fn],
    [on(event, fn)] followed by [off(event, fn)] leaves the page exactly
    as it was. *)
Theorem on_then_off_restores event fn ls w :
  eventListeners w !! event = Some ls → (fn ∉ ls) →
  script_bind (Connection.addEventListener event fn)
    (λ _, Connection.removeEventListener event fn) w
  = (Normal (), w).
Proof.
  intros Hls Hnot.
  unfold script_bind, Connection.addEventListener, Connection.removeEventListener.
  rewrite Hls. cbn [eventListeners with_eventListeners]. rewrite lookup_insert_eq.
  rewrite filter_app, filter_cons_False, filter_nil, app_nil_r by (intros H; by apply H).
  rewrite filter_keeps_all
    by (apply Forall_forall; intros l Hl ->; by apply Hnot).
  rewrite insert_insert_eq, insert_id by exact Hls.
  f_equal. destruct w; reflexivity.
Qed.

(** X14. After [offAll(event)] a dispatch of the event calls nobody and
    completes normally, whatever was registered before, also for an
    event named like an inherited property; the lists of the other
    events are untouched. The event name [__proto__] is left out by the
    model. *)
Theorem offAll_silences_event event data w :
  event ≠ "__proto__" →
  ∃ w',
    Connection.removeAllEventListeners event w = (Normal (), w')
    ∧ Connection.dispatchEvent env event data w' = (Normal (), w')
    ∧ default [] (eventListeners w' !! event) = []
    ∧ ∀ other, other ≠ event → eventListeners w' !! other = eventListeners w !! other.
Proof.
  intros _. unfold Connection.removeAllEventListeners, script_do.
  eexists. split; [ reflexivity | ].
  unfold Connection.dispatchEvent.
  destruct (eventListeners w !! event) as [ls | ] eqn:Hls;
    [ | destruct (Connection.inherited event) eqn:Hin ];
    cbn [eventListeners with_eventListeners];
    rewrite ?lookup_insert_eq, ?Hls, ?Hin; cbn [Connection.forEach default];
    (split; [ reflexivity | split; [ reflexivity | ] ]);
    intros other Hother; rewrite ?lookup_insert_ne by congruence; reflexivity.
Qed.

(** X15. [is_connected] and [is_disconnected] never hold together. *)
Theorem never_connected_and_disconnected w :
  Connection.is_connected w && Connection.is_disconnected w = false.
Proof.
  unfold Connection.is_connected, Connection.is_disconnected, Connection.current_readyState.
  destruct (ws w) as [sock | ]; cbn [mbind option_bind]; [ | reflexivity ].
  destruct (readyState <$> sockets w !! sock) as [ [] | ]; reflexivity.
Qed.

End Listeners.

(** ** The message listener and [invoke] *)

Section Replies.
Context (env : Env).

Lemma settle_frame p st w :
  connection_state (Broker.settle p st w) = connection_state w
  ∧ List.length (promises (Broker.settle p st w)) = List.length (promises w)
  ∧ microtasks (Broker.settle p st w) = microtasks w.
Proof.
  unfold Broker.settle. repeat case_match; repeat split.
  cbn [promises with_promises]. apply length_insert.
Qed.

Lemma run_callback_frame cb v w :
  connection_state (Broker.run_callback cb v w) = connection_state w
  ∧ List.length (promises (Broker.run_callback cb v w)) = List.length (promises w)
  ∧ microtasks (Broker.run_callback cb v w) = microtasks w.
Proof. destruct cb; apply settle_frame. Qed.

Lemma call_resolver_frame prop r payload w :
  connection_state (Broker.call_resolver env prop r payload w) = connection_state w
  ∧ List.length (promises (Broker.call_resolver env prop r payload w))
    = List.length (promises w).
Proof.
  unfold Broker.call_resolver.
  destruct (once r), (callback r) as [cb | ], (isAsync r);
    repeat case_match; try (split; reflexivity);
    match goal with
    | |- context [ Broker.run_callback ?cb ?v ?w0 ] =>
        destruct (run_callback_frame cb v w0) as (-> & -> & _); split; reflexivity
    end.
Qed.

Lemma deliver_frame id payload w :
  let '(_, w') := Broker.deliver env id payload w in
  connection_state w' = connection_state w
  ∧ List.length (promises w') = List.length (promises w).
Proof.
  unfold Broker.deliver, script_bind, script_lift, script_ret.
  destruct (truthy id); [ | split; reflexivity ].
  destruct (ToString env id) as [s | e]; [ | split; reflexivity ].
  destruct (window w !! ("_" +:+ s)) as [r | ]; [ apply call_resolver_frame | ].
  destruct (Broker.call_inherited env ("_" +:+ s) payload w) as [c w'] eqn:Hc.
  apply call_inherited_world in Hc as ->. split; reflexivity.
Qed.

Lemma handle_message_frame raw w :
  let '(_, w') := Broker.handle_message env raw w in
  connection_state w' = connection_state w
  ∧ List.length (promises w') = List.length (promises w)
  ∧ ∀ k r, window w' !! k = Some r → window w !! k = Some r.
Proof.
  unfold Broker.handle_message, script_bind at 1, script_lift.
  destruct (Broker.parse_frame env raw) as [data | e]; [ | by repeat split ].
  assert (Hboth :
    let '(_, w') :=
      script_bind (Broker.deliver env (Get data "result_id") (Get data "result"))
        (λ _, Broker.deliver env (Get data "error_id") (Get data "error")) w in
    connection_state w' = connection_state w
    ∧ List.length (promises w') = List.length (promises w)
    ∧ ∀ k r, window w' !! k = Some r → window w !! k = Some r).
  { unfold script_bind.
    pose proof (deliver_frame (Get data "result_id") (Get data "result") w) as H1.
    destruct (Broker.deliver env (Get data "result_id") (Get data "result") w)
      as [c1 w1] eqn:Hd1.
    destruct H1 as (Hc1 & Hp1).
    assert (Hw1 : ∀ k r, window w1 !! k = Some r → window w !! k = Some r)
      by (intros k r; apply (deliver_shrinks env _ _ _ _ _ _ _ Hd1)).
    destruct c1 as [[] | e]; [ | by repeat split ].
    pose proof (deliver_frame (Get data "error_id") (Get data "error") w1) as H2.
    destruct (Broker.deliver env (Get data "error_id") (Get data "error") w1)
      as [c2 w2] eqn:Hd2.
    destruct H2 as (Hc2 & Hp2).
    split; [ congruence | split; [ congruence | ] ].
    intros k r Hk. apply Hw1. exact (deliver_shrinks env _ _ _ _ _ _ _ Hd2 Hk). }
  destruct data; first [ exact Hboth | by repeat split ].
Qed.

(** X16. A frame that [JSON.parse] rejects, or that parses to [null],
    only produces the warning [Invalid message received:] with the raw
    frame; the listener returns normally and nothing else changes. *)
Theorem invalid_frame_only_warns raw w :
  Broker.parse_frame env raw = Normal JNull ∨ (∃ e, Broker.parse_frame env raw = Throw e) →
  Broker.on_message env raw w
  = (Normal (),
     with_console
       (console w ++ [ {| log_level := "warn";
                          log_args := [JStr "Invalid message received:"; raw] |} ]) w).
Proof.
  intros Hbad.
  unfold Broker.on_message, try_catch, Broker.handle_message, script_bind, script_lift.
  destruct Hbad as [-> | [e ->]]; reflexivity.
Qed.

(** X17. The message listener never throws, whatever the frame. It
    leaves the sockets, the transmitted frames, the listeners, the
    timers, the reconnect variables and the random source as they are,
    creates no promise, and registers no resolver: every resolver
    present afterwards was present before. *)
Theorem message_listener_is_contained raw w :
  let '(c, w') := Broker.on_message env raw w in
  c = Normal ()
  ∧ connection_state w' = connection_state w
  ∧ List.length (promises w') = List.length (promises w)
  ∧ ∀ k r, window w' !! k = Some r → window w !! k = Some r.
Proof.
  unfold Broker.on_message, try_catch.
  pose proof (handle_message_frame raw w) as H.
  destruct (Broker.handle_message env raw w) as [[[] | e] w'];
    destruct H as (Hc & Hp & Hw); repeat split; assumption.
Qed.

(** X18. Identifiers that are falsy are skipped: a frame without
    [__proto__] keys whose [result_id] and [error_id] are both absent,
    the number 0, the empty string or otherwise falsy changes nothing,
    even when a resolver is registered under the name such an
    identifier prints to. *)
Theorem falsy_ids_are_dropped raw data w :
  Broker.parse_frame env raw = Normal data → data ≠ JNull →
  no_proto_key data = true →
  deliveries data = [] →
  Broker.on_message env raw w = (Normal (), w).
Proof.
  intros Hp Hnn _ Hnone. unfold Broker.on_message, try_catch.
  rewrite (handle_message_deliveries env raw data w Hp Hnn).
  unfold deliveries in Hnone. cbn [List.filter fst] in Hnone. unfold script_bind.
  destruct (truthy (Get data "result_id")) eqn:Ha; [ discriminate | ].
  destruct (truthy (Get data "error_id")) eqn:Hb; [ discriminate | ].
  rewrite (deliver_falsy env _ _ _ Ha), (deliver_falsy env _ _ _ Hb). reflexivity.
Qed.

(** A reply whose only identifier names a registered one-shot resolver
    of a pending promise. *)
Lemma reply_settles raw data id payload s cb v w :
  Broker.parse_frame env raw = Normal data →
  deliveries data = [(id, payload)] →
  ToString env id = Normal s →
  window w !! ("_" +:+ s) = Some (one_shot cb) →
  Broker.jsonRestoreObjectSync env payload = Normal v →
  Broker.on_message env raw w
  = (Normal (),
     Broker.run_callback cb v (with_window (delete ("_" +:+ s) (window w)) w)).
Proof.
  intros Hp Hd Hs Hr Hv. unfold Broker.on_message, try_catch.
  assert (Hnn : data ≠ JNull) by (apply deliveries_not_null; rewrite Hd; discriminate).
  rewrite (handle_message_deliveries env raw data w Hp Hnn).
  destruct (sole_delivery env data id payload w Hd) as [-> Ht].
  rewrite (deliver_truthy env _ _ _ _ Ht Hs), Hr.
  unfold Broker.call_resolver, one_shot. cbn [once callback isAsync].
  rewrite Hv. reflexivity.
Qed.

Lemma id_truthy (n : N) : n ≠ 0%N → truthy (JNum (NInt (Z.of_N n))) = true.
Proof. intros Hn. cbn. apply negb_true_iff, Z.eqb_neq. lia. Qed.

(** X19. End to end, the result path: after [invoke] on an open
    connection, a frame whose [result_id] is the first number drawn for
    the call (and which has no truthy [error_id]) fulfils the returned
    promise with the decoded [result], removes the result resolver and
    leaves the error resolver registered. The two numbers drawn must
    differ and the first must not be 0; neither the arguments nor the
    frame hold a [__proto__] key. *)
Theorem invoke_then_result_fulfils (cmd : string) args w sock py_args raw data v :
  ws w = Some sock →
  Connection.is_connected w = true →
  wf_value args = true → no_proto_key args = true →
  Broker.jsonMakeObjectSafe env (nullish_or args (JObject [])) = Normal py_args →
  let rid := (random_u32 env (draws w) mod 2 ^ 32)%N in
  let eid := (random_u32 env (S (draws w)) mod 2 ^ 32)%N in
  let p := List.length (promises w) in
  rid ≠ 0%N → rid ≠ eid →
  Broker.parse_frame env raw = Normal data → no_proto_key data = true →
  Get data "result_id" = JNum (NInt (Z.of_N rid)) →
  truthy (Get data "error_id") = false →
  Broker.jsonRestoreObjectSync env (Get data "result") = Normal v →
  Broker.is_thenable v = false →
  let '(r, w1) := Broker.invoke env (JStr cmd) args w in
  ∃ w2,
    r = Normal p
    ∧ Broker.on_message env raw w1 = (Normal (), w2)
    ∧ promises w2 = promises w ++ [Fulfilled v]
    ∧ window w2 !! Broker.prop_of env rid = None
    ∧ window w2 !! Broker.prop_of env eid = Some (one_shot (CbReject p)).
Proof.
  intros Hws Hopen Hwf _ Henc rid eid p Hnz Hne Hp _ Hid Herr Hv Hthen.
  pose proof (invoke_connected env cmd args w sock py_args Hws Hopen Hwf Henc) as H.
  cbv zeta in H. fold rid eid p in H.
  destruct (Broker.invoke env (JStr cmd) args w) as [r w1].
  destruct H as (Hr & Hprom & Hwin & _).
  assert (Hprops : Broker.prop_of env rid ≠ Broker.prop_of env eid).
  { intros Heq. apply Hne. apply (prop_of_inj env); [ | | exact Heq ];
      apply N.mod_upper_bound; discriminate. }
  assert (Hd : deliveries data = [(JNum (NInt (Z.of_N rid)), Get data "result")]).
  { unfold deliveries. cbn [List.filter fst]. rewrite Herr, Hid, (id_truthy rid Hnz).
    reflexivity. }
  assert (Hreg : window w1 !! ("_" +:+ Number_toString env (NInt (Z.of_N rid)))
                 = Some (one_shot (CbResolve p))).
  { rewrite Hwin. change ("_" +:+ Number_toString env (NInt (Z.of_N rid)))
      with (Broker.prop_of env rid).
    rewrite lookup_insert_ne by (intros E; apply Hprops; symmetry; exact E).
    apply lookup_insert_eq. }
  eexists. split; [ exact Hr | ].
  split; [ exact (reply_settles raw data _ _ _ _ v w1 Hp Hd eq_refl Hreg Hv) | ].
  cbn [Broker.run_callback]. rewrite Hthen.
  split; [ | split ].
  - unfold Broker.settle. cbn [promises with_window]. rewrite Hprom.
    rewrite list_lookup_middle by reflexivity. cbn [promises with_promises].
    rewrite insert_app_r_alt by (subst p; lia).
    subst p. rewrite Nat.sub_diag. reflexivity.
  - rewrite window_settle. cbn [window with_window]. apply lookup_delete_eq.
  - rewrite window_settle. cbn [window with_window].
    rewrite lookup_delete_ne by exact Hprops.
    rewrite Hwin. apply lookup_insert_eq.
Qed.

(** X20. End to end, the error path: after [invoke] on an open
    connection, a frame whose [error_id] is the second number drawn for
    the call (and which has no truthy [result_id]) rejects the returned
    promise with the decoded [error] and removes the error resolver.
    The number must not be 0; neither the arguments nor the frame hold
    a [__proto__] key. *)
Theorem invoke_then_error_rejects (cmd : string) args w sock py_args raw data v :
  ws w = Some sock →
  Connection.is_connected w = true →
  wf_value args = true → no_proto_key args = true →
  Broker.jsonMakeObjectSafe env (nullish_or args (JObject [])) = Normal py_args →
  let eid := (random_u32 env (S (draws w)) mod 2 ^ 32)%N in
  let p := List.length (promises w) in
  eid ≠ 0%N →
  Broker.parse_frame env raw = Normal data → no_proto_key data = true →
  truthy (Get data "result_id") = false →
  Get data "error_id" = JNum (NInt (Z.of_N eid)) →
  Broker.jsonRestoreObjectSync env (Get data "error") = Normal v →
  let '(r, w1) := Broker.invoke env (JStr cmd) args w in
  ∃ w2,
    r = Normal p
    ∧ Broker.on_message env raw w1 = (Normal (), w2)
    ∧ promises w2 = promises w ++ [Rejected v]
    ∧ window w2 !! Broker.prop_of env eid = None.
Proof.
  intros Hws Hopen Hwf _ Henc eid p Hnz Hp _ Hres Hid Hv.
  pose proof (invoke_connected env cmd args w sock py_args Hws Hopen Hwf Henc) as H.
  cbv zeta in H. fold eid p in H.
  destruct (Broker.invoke env (JStr cmd) args w) as [r w1].
  destruct H as (Hr & Hprom & Hwin & _).
  assert (Hd : deliveries data = [(JNum (NInt (Z.of_N eid)), Get data "error")]).
  { unfold deliveries. cbn [List.filter fst]. rewrite Hres, Hid, (id_truthy eid Hnz).
    reflexivity. }
  assert (Hreg : window w1 !! ("_" +:+ Number_toString env (NInt (Z.of_N eid)))
                 = Some (one_shot (CbReject p))).
  { rewrite Hwin. apply lookup_insert_eq. }
  eexists. split; [ exact Hr | ].
  split; [ exact (reply_settles raw data _ _ _ _ v w1 Hp Hd eq_refl Hreg Hv) | ].
  cbn [Broker.run_callback].
  split.
  - unfold Broker.settle. cbn [promises with_window]. rewrite Hprom.
    rewrite list_lookup_middle by reflexivity. cbn [promises with_promises].
    rewrite insert_app_r_alt by (subst p; lia).
    subst p. rewrite Nat.sub_diag. reflexivity.
  - rewrite window_settle. cbn [window with_window]. apply lookup_delete_eq.
Qed.

(** X21. When the arguments cannot be encoded (an invalid [Date], a
    view with an element above 255, ...) [invoke] on an open connection
    returns a promise rejected with the encoder's exception: nothing is
    sent and no identifier is drawn or registered. *)
Theorem invoke_unencodable_args_rejects cmd args w e :
  Connection.is_connected w = true →
  Broker.jsonMakeObjectSafe env (nullish_or args (JObject [])) = Throw e →
  let '(r, w') := Broker.invoke env cmd args w in
  r = Normal (List.length (promises w))
  ∧ promises w' = promises w ++ [Rejected e]
  ∧ wire w' = wire w ∧ window w' = window w ∧ draws w' = draws w.
Proof.
  intros Hopen Henc.
  unfold Broker.invoke, script_bind, try_catch, Broker.new_Promise, script_do, script_ret,
    script_lift.
  change (Connection.is_connected (with_promises (promises w ++ [Pending]) w))
    with (Connection.is_connected w).
  rewrite Hopen, Henc. cbn [negb Broker.run_callback].
  rewrite settle_new_promise. cbn. done.
Qed.

(** X22. When the two numbers drawn for a call coincide, the second
    registration replaces the first: only the error resolver is
    registered under the shared name, so a reply bearing that
    identifier can only reject the promise. *)
Theorem uid_collision_keeps_reject_only (cmd : string) args w sock py_args :
  ws w = Some sock →
  Connection.is_connected w = true →
  wf_value args = true →
  Broker.jsonMakeObjectSafe env (nullish_or args (JObject [])) = Normal py_args →
  let rid := (random_u32 env (draws w) mod 2 ^ 32)%N in
  let eid := (random_u32 env (S (draws w)) mod 2 ^ 32)%N in
  let p := List.length (promises w) in
  rid = eid →
  window (Broker.invoke env (JStr cmd) args w).2
  = <[Broker.prop_of env rid := one_shot (CbReject p)]> (window w).
Proof.
  intros Hws Hopen Hwf Henc rid eid p Heq.
  pose proof (invoke_connected env cmd args w sock py_args Hws Hopen Hwf Henc) as H.
  cbv zeta in H. fold rid eid p in H.
  destruct (Broker.invoke env (JStr cmd) args w) as [r w1].
  destruct H as (_ & _ & Hwin & _). cbn [snd]. rewrite Hwin, <- Heq.
  apply insert_insert_eq.
Qed.

(** X23. The registry only ever holds one-shot resolvers: neither
    [invoke] nor the message listener breaks that. *)
Theorem registry_stays_one_shot cmd args raw w :
  all_one_shot w →
  all_one_shot (Broker.invoke env cmd args w).2
  ∧ all_one_shot (Broker.on_message env raw w).2.
Proof.
  intros Hall. split; [ apply invoke_keeps_one_shot | apply on_message_keeps_one_shot ];
    exact Hall.
Qed.

(** X24. Once the second script has registered its listener on a page
    without [message] listeners, the message event of any socket runs
    the broker's listener on the event's [data]. *)
Theorem socket_message_reaches_broker l w :
  eventListeners w !! "message" = None →
  (∀ raw, listener_fn env l raw = Broker.on_message env raw) →
  ∃ w0,
    Broker.load l w = (Normal (), w0)
    ∧ ∀ e, Connection.ws_onmessage env e w0 = Broker.on_message env (Get e "data") w0.
Proof.
  intros Hnone Hl. unfold Broker.load, Connection.addEventListener. rewrite Hnone.
  eexists. split; [ reflexivity | ]. intros e.
  apply (message_event_reaches_broker env l).
  - cbn [eventListeners with_eventListeners]. apply lookup_insert_eq.
  - exact Hl.
Qed.

End Replies.

(** ** The two encoders and the two decoders *)

Section Codecs.
Context (env : Env).

(** X25. What the broker's encoder returns is JSON data, and the
    encoder of [send] leaves it as it is: encoding the payload a second
    time on its way out does not change it. *)
Theorem second_encoding_changes_nothing v v' :
  wf_value v = true →
  Broker.jsonMakeObjectSafe env v = Normal v' →
  wire_safe v' = true ∧ Connection.jsonMakeObjectSafe env v' = Normal v'.
Proof.
  intros Hwf Henc.
  pose proof (encoder_output_wire_safe env v v' Hwf Henc) as Hsafe.
  split; [ exact Hsafe | exact (send_codec_fixes_wire_safe env v' Hsafe) ].
Qed.

(** X26. The two copies of [jsonMakeObjectSafe] agree, in result and in
    failure, on every value that holds no Set, no object of a class of
    its own and no own [constructor] property. *)
Theorem encoders_agree_on_plain_data v :
  plain_data v = true →
  Connection.jsonMakeObjectSafe env v = Broker.jsonMakeObjectSafe env v.
Proof.
  induction v as
    [ | | b | n | s | tv | bs | es | items IH | items IH | ps IH | c r ps IH | n r ]
    using JsValue_nested_ind; cbn [plain_data]; intros Hp; try reflexivity;
    try discriminate.
  - cbn [Connection.jsonMakeObjectSafe Broker.jsonMakeObjectSafe]. f_equal.
    apply mapM_ext_Forall.
    induction IH as [ | x xs Hx _ IHxs ]; [ constructor | ].
    cbn in Hp. apply andb_prop in Hp as [Hpx Hpxs]. constructor; auto.
  - apply andb_prop in Hp as [Hvals Hctor]. revert Hctor.
    destruct (lookup_prop "constructor" ps) as [c | ] eqn:Hc; [ intros H; discriminate H | intros _ ].
    cbn [Connection.jsonMakeObjectSafe Broker.jsonMakeObjectSafe constructor_named_Path
         constructor_is_Object].
    rewrite Hc. f_equal. apply assign_entries_ext.
    induction IH as [ | [k x] xs Hx _ IHxs ]; [ constructor | ].
    cbn in Hvals. apply andb_prop in Hvals as [Hpx Hpxs]. constructor; [ auto | ].
    apply IHxs; [ exact Hpxs | ].
    cbn [lookup_prop] in Hc. revert Hc.
    destruct (String.eqb "constructor" k); [ intros H; discriminate H | exact id ].
Qed.

(** X27. Binary data does not come back: whenever the encoder returns a
    value for a buffer, or for a view whose elements are the same
    octets, that value is the base64 text of the octets, and the
    decoder returns that text as a string. (The encoder does not
    return when the octets are too many for the engine's argument list;
    the theorem says nothing of that case.) *)
Theorem binary_comes_back_as_base64 bytes elems v :
  ToUint16 <$> elems = Byte.to_N <$> bytes →
  Broker.jsonMakeObjectSafe env (JArrayBuffer bytes) = Normal v
  ∨ Broker.jsonMakeObjectSafe env (JTypedArray elems) = Normal v →
  v = JStr (Base64.encode (Byte.to_N <$> bytes))
  ∧ Broker.jsonRestoreObjectSync env v = Normal v.
Proof.
  intros Helems Henc.
  pose proof (buffer_round_trip env bytes) as Hround. unfold round_trip in Hround.
  assert (Hbuffer : Broker.jsonMakeObjectSafe env (JArrayBuffer bytes) = Normal v).
  { destruct Henc as [H | H]; [ exact H | ].
    cbn [Broker.jsonMakeObjectSafe] in *. rewrite Helems in H. exact H. }
  rewrite Hbuffer in Hround. cbn [mbind Completion_bind] in Hround.
  assert (Htext : v = JStr (Base64.encode (Byte.to_N <$> bytes))).
  { cbn [Broker.jsonMakeObjectSafe] in Hbuffer. unfold btoa in Hbuffer.
    destruct (forallb _ _); cbn in Hbuffer; [ | discriminate Hbuffer ].
    by injection Hbuffer as <-. }
  split; [ exact Htext | ]. rewrite Hround. by rewrite Htext.
Qed.

(** X28. A view with an element that does not fit in an octet once
    reduced to 16 bits (256 in a [Uint16Array], -1 in an [Int8Array])
    cannot be encoded: each of the two encoders throws. (What is thrown
    is [btoa]'s [InvalidCharacterError], unless the view is too long for
    the engine's argument list, which throws first.) *)
Theorem view_element_above_255_throws elems :
  Exists (λ x, (255 < ToUint16 x)%N) elems →
  (∃ e, Connection.jsonMakeObjectSafe env (JTypedArray elems) = Throw e)
  ∧ (∃ e, Broker.jsonMakeObjectSafe env (JTypedArray elems) = Throw e).
Proof.
  intros Hbig.
  assert (Hno : forallb (λ c, c <=? 255)%N (ToUint16 <$> elems) = false).
  { induction Hbig as [ x xs Hx | x xs _ IH ]; cbn.
    - apply andb_false_iff. left. apply N.leb_gt. exact Hx.
    - apply andb_false_iff. right. exact IH. }
  cbn [Connection.jsonMakeObjectSafe Broker.jsonMakeObjectSafe]. unfold btoa.
  rewrite Hno. split; eexists; reflexivity.
Qed.


(** X30. A plain object with non-empty strings under [media_type] and
    [bytes] is decoded by both decoders to the data URI built from the
    two, whatever else the object holds. *)
Theorem media_object_decodes_to_data_uri ps mt b :
  lookup_prop "constructor" ps = None →
  lookup_prop "media_type" ps = Some (JStr mt) → mt ≠ "" →
  lookup_prop "bytes" ps = Some (JStr b) → b ≠ "" →
  Broker.jsonRestoreObjectSync env (JObject ps)
  = Normal (JStr ("data:" +:+ mt +:+ ";base64," +:+ b))
  ∧ Broker.jsonRestoreObjectAsync env (JObject ps)
    = Normal (JStr ("data:" +:+ mt +:+ ";base64," +:+ b)).
Proof.
  intros Hc Hmt Hmt_ne Hb Hb_ne.
  assert (Hne : ∀ s, s ≠ "" → negb (String.eqb s "") = true).
  { intros s Hs. apply negb_true_iff, String.eqb_neq. exact Hs. }
  cbn [Broker.jsonRestoreObjectSync Broker.jsonRestoreObjectAsync constructor_is_Object].
  rewrite Hc. unfold Broker.is_media_object, Broker.data_url. cbn [Get].
  rewrite Hmt, Hb. cbn [default id truthy ToString mbind Completion_bind].
  rewrite (Hne mt Hmt_ne), (Hne b Hb_ne). split; reflexivity.
Qed.

End Codecs.

(** ** Examples for the further properties *)

Lemma connect_opens_new_socket_witness :
  Connection.url_configured demo_env = true
  ∧ Connection.connect demo_env demo_open
    = (Normal (), (Connection.connect demo_env demo_open).2)
  ∧ ws (Connection.connect demo_env demo_open).2 = Some 1%nat
  ∧ Connection.is_connected (Connection.connect demo_env demo_open).2 = false.
Proof.
  split; [ reflexivity | ]. split; [ reflexivity | ].
  destruct (connect_opens_new_socket demo_env demo_open
              (Connection.connect demo_env demo_open).2 eq_refl eq_refl)
    as (_ & Hws & _ & _ & _ & _ & Hcon & _).
  split; assumption.
Defined.

Lemma connect_without_url_witness :
  Connection.url_configured demo_env_no_url = false
  ∧ ∃ w', Connection.connect demo_env_no_url initial_world = (Normal (), w')
          ∧ sockets w' = [] ∧ ws w' = None.
Proof.
  split; [ reflexivity | ].
  destruct (connect_without_url demo_env_no_url initial_world eq_refl)
    as (w' & Hc & _ & Hs & Hws & _).
  exists w'. repeat split; assumption.
Defined.

Lemma send_while_not_open_witness :
  Connection.is_connected demo_connecting = false
  ∧ wire (Connection.send demo_env (JDate None) demo_connecting).2 = [].
Proof.
  split; [ reflexivity | ].
  rewrite (send_while_not_open demo_env (JDate None) demo_connecting eq_refl). reflexivity.
Defined.

Lemma send_transmits_json_unchanged_witness :
  Connection.send demo_env (JObject [("a", JArray [JNum (NInt 1); JNull])]) demo_open
  = (Normal (),
     with_wire (wire demo_open ++ [(0%nat, JObject [("a", JArray [JNum (NInt 1); JNull])])])
       demo_open).
Proof.
  apply (send_transmits_json_unchanged demo_env _ demo_open 0%nat); reflexivity.
Defined.

Lemma send_propagates_encoding_failure_witness :
  Connection.send demo_env (JArray [JDate None]) demo_open
  = (Throw (error_object "RangeError" "Invalid time value"), demo_open).
Proof.
  apply (send_propagates_encoding_failure demo_env (JArray [JDate None]) demo_open);
    reflexivity.
Defined.

Lemma no_reconnect_after_close_witness :
  let '(_, w1) := Connection.close None None demo_open in
  let '(c, w2) := Connection.socket_closes demo_env 0%nat JNull w1 in
  c = Normal ()
  ∧ timers w2 = timers w1
  ∧ shouldReconnect w2 = false
  ∧ (ws demo_open = Some 0%nat → (0 < List.length (sockets demo_open))%nat →
     Connection.is_disconnected w2 = true).
Proof.
  apply (no_reconnect_after_close demo_env None None JNull 0%nat demo_open).
  vm_compute. reflexivity.
Defined.

Lemma timer_firing_reconnects_witness :
  ∃ w', Connection.timer_fires demo_env 1%nat demo_dropped = (Normal (), w')
        ∧ ws w' = Some 1%nat
        ∧ shouldReconnect w' = true.
Proof.
  assert (Hin : {| timer_id := 1%nat; timer_delay := 3000 |} ∈ timers demo_dropped)
    by apply list_elem_of_here.
  destruct (timer_firing_reconnects demo_env 1%nat 3000 demo_dropped eq_refl Hin)
    as (w' & Hf & _ & _ & Hws & Hflag).
  exists w'. repeat split; assumption.
Defined.

Lemma on_registers_last_witness :
  ∃ w', Connection.addEventListener "open" 2%nat (demo_listening "open" [1%nat])
        = (Normal (), w')
        ∧ eventListeners w' !! "open" = Some [1%nat; 2%nat].
Proof.
  destruct (on_registers_last demo_env "open" 2%nat JNull (demo_listening "open" [1%nat]))
    as (w' & Hadd & Hlast & _); [ vm_compute; reflexivity | discriminate | ].
  exists w'. split; [ exact Hadd | ].
  etrans; [ exact Hlast | ]. vm_compute. reflexivity.
Defined.

Lemma prototype_event_name_throws_witness :
  Connection.addEventListener "toString" 1%nat initial_world
  = (Throw (Connection.not_a_function "push"), initial_world)
  ∧ Connection.removeEventListener "toString" 1%nat initial_world
    = (Throw (Connection.not_a_function "filter"), initial_world)
  ∧ Connection.dispatchEvent demo_env "toString" JNull initial_world
    = (Throw (Connection.not_a_function "forEach"), initial_world).
Proof.
  apply (prototype_event_name_throws demo_env "toString" 1%nat JNull initial_world);
    vm_compute; reflexivity.
Defined.

Lemma on_then_off_restores_witness :
  script_bind (Connection.addEventListener "open" 2%nat)
    (λ _, Connection.removeEventListener "open" 2%nat) (demo_listening "open" [1%nat])
  = (Normal (), demo_listening "open" [1%nat]).
Proof.
  apply (on_then_off_restores "open" 2%nat [1%nat]).
  - vm_compute. reflexivity.
  - intros H. apply list_elem_of_singleton in H. discriminate.
Defined.

Lemma offAll_silences_event_witness :
  ∃ w', Connection.removeAllEventListeners "open" (demo_listening "open" [1%nat; 2%nat])
        = (Normal (), w')
        ∧ Connection.dispatchEvent demo_env "open" JNull w' = (Normal (), w').
Proof.
  destruct (offAll_silences_event demo_env "open" JNull
              (demo_listening "open" [1%nat; 2%nat]))
    as (w' & Hoff & Hdisp & _); [ discriminate | ].
  exists w'. split; assumption.
Defined.

Lemma invalid_frame_only_warns_witness :
  Broker.on_message demo_env (JStr "not json") demo_invoked
  = (Normal (),
     with_console
       (console demo_invoked
        ++ [ {| log_level := "warn";
                log_args := [JStr "Invalid message received:"; JStr "not json"] |} ])
       demo_invoked).
Proof.
  apply (invalid_frame_only_warns demo_env (JStr "not json") demo_invoked).
  right. eexists. vm_compute. reflexivity.
Defined.

Lemma falsy_ids_are_dropped_witness :
  window demo_zero_invoked !! "_0" = Some (one_shot (CbReject 0%nat))
  ∧ Broker.on_message demo_env_zero_ids (JStr "{result_id:0,result:42}") demo_zero_invoked
    = (Normal (), demo_zero_invoked).
Proof.
  split; [ vm_compute; reflexivity | ].
  apply (falsy_ids_are_dropped demo_env_zero_ids (JStr "{result_id:0,result:42}")
           (JObject [("result_id", JNum (NInt 0)); ("result", JNum (NInt 42))])
           demo_zero_invoked).
  - vm_compute. reflexivity.
  - discriminate.
  - reflexivity.
  - vm_compute. reflexivity.
Defined.

Lemma invoke_then_result_fulfils_witness :
  let '(r, w1) :=
    Broker.invoke demo_env (JStr "echo") (JObject [("value", JNum (NInt 42))]) demo_open in
  ∃ w2,
    r = Normal (List.length (promises demo_open))
    ∧ Broker.on_message demo_env result_frame w1 = (Normal (), w2)
    ∧ promises w2 = promises demo_open ++ [Fulfilled (JNum (NInt 42))]
    ∧ window w2
        !! Broker.prop_of demo_env (random_u32 demo_env (draws demo_open) mod 2 ^ 32)%N
      = None
    ∧ window w2
        !! Broker.prop_of demo_env (random_u32 demo_env (S (draws demo_open)) mod 2 ^ 32)%N
      = Some (one_shot (CbReject (List.length (promises demo_open)))).
Proof.
  apply (invoke_then_result_fulfils demo_env "echo" (JObject [("value", JNum (NInt 42))])
           demo_open 0%nat (JObject [("value", JNum (NInt 42))]) result_frame
           (JObject [("result_id", JNum (NInt 7)); ("result", JNum (NInt 42))])
           (JNum (NInt 42)));
    try (vm_compute; reflexivity); vm_compute; discriminate.
Defined.

Lemma invoke_then_error_rejects_witness :
  let '(r, w1) :=
    Broker.invoke demo_env (JStr "echo") (JObject [("value", JNum (NInt 42))]) demo_open in
  ∃ w2,
    r = Normal (List.length (promises demo_open))
    ∧ Broker.on_message demo_env error_frame w1 = (Normal (), w2)
    ∧ promises w2 = promises demo_open ++ [Rejected (JStr "busy")]
    ∧ window w2
        !! Broker.prop_of demo_env (random_u32 demo_env (S (draws demo_open)) mod 2 ^ 32)%N
      = None.
Proof.
  apply (invoke_then_error_rejects demo_env "echo" (JObject [("value", JNum (NInt 42))])
           demo_open 0%nat (JObject [("value", JNum (NInt 42))]) error_frame
           (JObject [("error_id", JNum (NInt 9)); ("error", JStr "busy")])
           (JStr "busy"));
    try (vm_compute; reflexivity); vm_compute; discriminate.
Defined.

Lemma invoke_unencodable_args_rejects_witness :
  let '(r, w') := Broker.invoke demo_env (JStr "echo") (JDate None) demo_open in
  r = Normal (List.length (promises demo_open))
  ∧ promises w'
    = promises demo_open ++ [Rejected (error_object "RangeError" "Invalid time value")]
  ∧ wire w' = wire demo_open ∧ window w' = window demo_open
  ∧ draws w' = draws demo_open.
Proof.
  apply (invoke_unencodable_args_rejects demo_env (JStr "echo") (JDate None) demo_open);
    reflexivity.
Defined.

Lemma uid_collision_keeps_reject_only_witness :
  window (Broker.invoke demo_env_zero_ids (JStr "echo") JUndefined demo_open).2
  = <[Broker.prop_of demo_env_zero_ids
        (random_u32 demo_env_zero_ids (draws demo_open) mod 2 ^ 32)%N :=
        one_shot (CbReject (List.length (promises demo_open)))]> (window demo_open).
Proof.
  apply (uid_collision_keeps_reject_only demo_env_zero_ids "echo" JUndefined demo_open 0%nat
           (JObject [])); reflexivity.
Defined.

Lemma registry_stays_one_shot_witness :
  all_one_shot (Broker.invoke demo_env (JStr "echo") JNull demo_open).2
  ∧ all_one_shot (Broker.on_message demo_env result_frame demo_open).2.
Proof.
  apply (registry_stays_one_shot demo_env (JStr "echo") JNull result_frame demo_open).
  assert (Hw : window demo_open = ∅) by (vm_compute; reflexivity).
  intros k r H. rewrite Hw, lookup_empty in H. discriminate.
Defined.

Lemma socket_message_reaches_broker_witness :
  ∃ w0,
    Broker.load 5%nat demo_open = (Normal (), w0)
    ∧ ∀ e, Connection.ws_onmessage demo_env_broker e w0
           = Broker.on_message demo_env_broker (Get e "data") w0.
Proof.
  apply (socket_message_reaches_broker demo_env_broker 5%nat demo_open).
  - vm_compute. reflexivity.
  - intros raw. reflexivity.
Defined.

Lemma second_encoding_changes_nothing_witness :
  Broker.jsonMakeObjectSafe demo_env (JSet [JNum (NInt 1); JDate (Some 0)])
  = Normal (JArray [JNum (NInt 1); JStr "1970-01-01T00:00:00.000Z"])
  ∧ Connection.jsonMakeObjectSafe demo_env
      (JArray [JNum (NInt 1); JStr "1970-01-01T00:00:00.000Z"])
    = Normal (JArray [JNum (NInt 1); JStr "1970-01-01T00:00:00.000Z"]).
Proof.
  split; [ vm_compute; reflexivity | ].
  apply (second_encoding_changes_nothing demo_env (JSet [JNum (NInt 1); JDate (Some 0)]));
    vm_compute; reflexivity.
Defined.

Lemma encoders_agree_on_plain_data_witness :
  Connection.jsonMakeObjectSafe demo_env demo_record
  = Broker.jsonMakeObjectSafe demo_env demo_record.
Proof. apply (encoders_agree_on_plain_data demo_env demo_record). reflexivity. Defined.

Lemma binary_comes_back_as_base64_witness :
  Broker.jsonMakeObjectSafe demo_env (JTypedArray [NInt 1; NInt 2; NInt 3])
  = Normal (JStr "AQID")
  ∧ JStr "AQID" = JStr (Base64.encode (Byte.to_N <$> [x01; x02; x03]))
  ∧ Broker.jsonRestoreObjectSync demo_env (JStr "AQID") = Normal (JStr "AQID").
Proof.
  split; [ reflexivity | ].
  apply (binary_comes_back_as_base64 demo_env [x01; x02; x03] [NInt 1; NInt 2; NInt 3]
           (JStr "AQID")); [ reflexivity | right; reflexivity ].
Defined.

Lemma view_element_above_255_throws_witness :
  (∃ e, Connection.jsonMakeObjectSafe demo_env (JTypedArray [NInt 72; NInt 256]) = Throw e)
  ∧ (∃ e, Broker.jsonMakeObjectSafe demo_env (JTypedArray [NInt 72; NInt (-1)]) = Throw e).
Proof.
  split.
  - apply (view_element_above_255_throws demo_env [NInt 72; NInt 256]).
    apply Exists_cons_tl, Exists_cons_hd. reflexivity.
  - apply (view_element_above_255_throws demo_env [NInt 72; NInt (-1)]).
    apply Exists_cons_tl, Exists_cons_hd. reflexivity.
Defined.


Lemma media_object_decodes_to_data_uri_witness :
  Broker.jsonRestoreObjectSync demo_env
    (JObject [("media_type", JStr "image/png"); ("bytes", JStr "AQID"); ("n", JNum (NInt 1))])
  = Normal (JStr "data:image/png;base64,AQID")
  ∧ Broker.jsonRestoreObjectAsync demo_env
      (JObject [("media_type", JStr "image/png"); ("bytes", JStr "AQID"); ("n", JNum (NInt 1))])
    = Normal (JStr "data:image/png;base64,AQID").
Proof.
  apply (media_object_decodes_to_data_uri demo_env
           [("media_type", JStr "image/png"); ("bytes", JStr "AQID"); ("n", JNum (NInt 1))]
           "image/png" "AQID"); first [ reflexivity | discriminate ].
Defined.

Lemma connect_then_open_connects_witness :
  let '(_, w1) := Connection.connect demo_env initial_world in
  let '(c, w2) :=
    Connection.socket_opens demo_env (List.length (sockets initial_world)) JNull w1 in
  c = Normal ()
  ∧ Connection.is_connected w2 = true
  ∧ Connection.is_disconnected w2 = false
  ∧ ws w2 = Some (List.length (sockets initial_world)).
Proof.
  apply (connect_then_open_connects demo_env JNull initial_world); vm_compute; reflexivity.
Defined.

Lemma reconnection_cycle_witness :
  ∃ w1 w2,
    Connection.socket_closes demo_env 0%nat JNull demo_open = (Normal (), w1)
    ∧ Connection.timer_fires demo_env 1%nat w1 = (Normal (), w2)
    ∧ ws w2 = Some 1%nat
    ∧ reconnectTimer w2 = Some 1%nat.
Proof.
  destruct (reconnection_cycle demo_env 0%nat OPEN JNull demo_open)
    as (w1 & w2 & Hclose & Hfire & _ & _ & Hws & _ & Htimer);
    [ reflexivity | reflexivity | discriminate | vm_compute; reflexivity | reflexivity
    | apply Forall_nil_2 | ].
  exists w1, w2. repeat split; assumption.
Defined.
